(** * Stopwatch manager and recipe collection service

  A shallow embedding of [src/app/page.tsx] (the stopwatch store and its
  time formatter) and of the recipe route handlers (GET, POST, PUT,
  DELETE over one key of a key-value store).

  Numbers: every number the stopwatch code handles is a reading of
  [Date.now()] or a sum or difference of such readings, so numbers are
  modelled as [Z] (exact for JavaScript numbers below 2^53).  [x % y] is
  JavaScript's truncated remainder ([Z.rem]); [Math.floor (x / y)] with
  [y > 0] is [Z.div]. *)

From Stdlib Require Import ZArith List String Ascii Bool Lia.
From Stdlib Require Import Numbers.DecimalString.
Import ListNotations.

Local Open Scope string_scope.
Local Open Scope Z_scope.

Set Warnings "-register-all".

(** ** JavaScript string helpers used by the page *)

Module Js.

(** [String(n)] for an integer [n]. *)
Definition String_ (n : Z) : string :=
  NilZero.string_of_int (Z.to_int n).

Fixpoint repeat_char (c : ascii) (k : nat) : string :=
  match k with
  | O => EmptyString
  | S k' => String c (repeat_char c k')
  end.

(** [s.padStart(target, c)] for a one-character filler [c]: a string
    already [target] long (or longer) is returned as it is. *)
Definition padStart (target : nat) (c : ascii) (s : string) : string :=
  repeat_char c (target - String.length s) ++ s.

(** The character of a decimal digit [d], [0 <= d <= 9]. *)
Definition digit (d : Z) : ascii := ascii_of_nat (48 + Z.to_nat d).

(** Two decimal digits, zero-padded: the tens digit, then the units. *)
Definition two_digits (n : Z) : string :=
  String (digit (n / 10)) (String (digit (n mod 10)) EmptyString).

(** Whether [String(k).padStart(2, "0")] is the two digits of [k]. *)
Definition pad2_agrees (k : nat) : bool :=
  String.eqb (padStart 2 "0" (String_ (Z.of_nat k))) (two_digits (Z.of_nat k)).

End Js.

(** ** The stopwatch store ([src/app/page.tsx]) *)

Module Stopwatch.

(** [type Stopwatch]; [startedAt : number | null]. *)
Record t : Type := mk {
  id : string;
  name : string;
  isRunning : bool;
  startedAt : option Z;
  elapsed : Z
}.

(** [format(ms)], lines 25-37. *)
Definition format (ms0 : Z) : string :=
  let negative := ms0 <? 0 in
  let ms := if negative then - ms0 else ms0 in
  let hours := ms / 3600000 in
  let minutes := Z.rem ms 3600000 / 60000 in
  let seconds := Z.rem ms 60000 / 1000 in
  let hundredths := Z.rem ms 1000 / 10 in
  let h := if 0 <? hours
           then Js.padStart 2 "0" (Js.String_ hours) ++ ":"
           else "" in
  let m := Js.padStart 2 "0" (Js.String_ minutes) in
  let s := Js.padStart 2 "0" (Js.String_ seconds) in
  let hs := Js.padStart 2 "0" (Js.String_ hundredths) in
  (if negative then "-" else "") ++ h ++ m ++ ":" ++ s ++ "." ++ hs.

(** [computedElapsed(sw)], lines 95-100; [now] is the reading of
    [Date.now()] at the call. *)
Definition computedElapsed (now : Z) (sw : t) : Z :=
  match isRunning sw, startedAt sw with
  | true, Some s => elapsed sw + (now - s)
  | _, _ => elapsed sw
  end.

(** [addStopwatch], lines 102-112; [uuid] is the result of
    [crypto.randomUUID()]. *)
Definition addStopwatch (uuid : string) (prev : list t) : list t :=
  (prev ++
  [ {| id := uuid;
       name := "Stopwatch " ++ Js.String_ (Z.of_nat (List.length prev) + 1);
       isRunning := false;
       startedAt := None;
       elapsed := 0 |} ])%list.

(** [deleteStopwatch], lines 114-115. *)
Definition deleteStopwatch (target : string) (prev : list t) : list t :=
  filter (fun sw => negb (String.eqb (id sw) target)) prev.

(** The callback of [start]'s [map], lines 120-122. *)
Definition start1 (now : Z) (target : string) (sw : t) : t :=
  if String.eqb (id sw) target && negb (isRunning sw)
  then {| id := id sw; name := name sw;
          isRunning := true; startedAt := Some now;
          elapsed := elapsed sw |}
  else sw.

Definition start (now : Z) (target : string) (prev : list t) : list t :=
  map (start1 now target) prev.

(** The callback of [stop]'s [map], lines 128-138. *)
Definition stop1 (now : Z) (target : string) (sw : t) : t :=
  match String.eqb (id sw) target && isRunning sw, startedAt sw with
  | true, Some s =>
      {| id := id sw; name := name sw;
         isRunning := false;
         startedAt := None;
         elapsed := elapsed sw + (now - s) |}
  | _, _ => sw
  end.

Definition stop (now : Z) (target : string) (prev : list t) : list t :=
  map (stop1 now target) prev.

(** The callback of [reset]'s [map], lines 143-147. *)
Definition reset1 (target : string) (sw : t) : t :=
  if String.eqb (id sw) target
  then {| id := id sw; name := name sw;
          isRunning := false; startedAt := None; elapsed := 0 |}
  else sw.

Definition reset (target : string) (prev : list t) : list t :=
  map (reset1 target) prev.

(** The callback of [rename]'s [map], line 151. *)
Definition rename1 (target : string) (new_name : string) (sw : t) : t :=
  if String.eqb (id sw) target
  then {| id := id sw; name := new_name;
          isRunning := isRunning sw; startedAt := startedAt sw;
          elapsed := elapsed sw |}
  else sw.

Definition rename (target new_name : string) (prev : list t) : list t :=
  map (rename1 target new_name) prev.

(** The data-model invariant: a running stopwatch has a start time. *)
Definition wf (sw : t) : Prop :=
  isRunning sw = true -> startedAt sw <> None.

(** The records an operation on [target] must leave alone. *)
Definition others (target : string) (l : list t) : list t :=
  filter (fun sw => negb (String.eqb (id sw) target)) l.

End Stopwatch.

(** ** The recipe collection service (route handlers GET, POST, PUT, DELETE) *)

Module Recipes.

(** A parsed JSON value, as [request.json()] resolves to; [JUndefined] is
    what reading an absent property gives.  An object is the list of its
    own properties, each key once. *)
Inductive jsval : Type :=
| JUndefined
| JNull
| JBool (b : bool)
| JNum (n : Z)
| JStr (s : string)
| JArr (items : list jsval)
| JObj (fields : list (string * jsval)).

(** JavaScript truthiness, the test behind [!v]. *)
Definition truthy (v : jsval) : bool :=
  match v with
  | JUndefined | JNull => false
  | JBool b => b
  | JNum n => negb (n =? 0)
  | JStr s => negb (String.eqb s "")
  | JArr _ | JObj _ => true
  end.

Fixpoint own_property (key : string) (fields : list (string * jsval)) : jsval :=
  match fields with
  | [] => JUndefined
  | (k, v) :: rest => if String.eqb k key then v else own_property key rest
  end.

(** Failure ([Throw]) is a JavaScript exception or a rejected promise. *)
Inductive outcome (A : Type) : Type :=
| Ok (a : A)
| Throw.
Arguments Ok {A} a.
Arguments Throw {A}.

(** One property read by the destructuring [const { key } = body]:
    destructuring [null] throws a TypeError; a primitive or an array has
    none of the properties [id], [title], [content]. *)
Definition destructure (key : string) (body : jsval) : outcome jsval :=
  match body with
  | JNull | JUndefined => Throw
  | JObj fields => Ok (own_property key fields)
  | _ => Ok JUndefined
  end.

(** Modelled from the spec: the type [Recipe], declared in
    [app/types/recipe], which is not among the sources.  The record shape
    is [{id, title, content, createdAt, updatedAt}]; [title] and [content]
    hold the JSON value the request carried (a string in every request the
    client sends). *)
Record Recipe : Type := mkRecipe {
  id : string;
  title : jsval;
  content : jsval;
  createdAt : Z;
  updatedAt : Z
}.

(** The key-value store, seen through the one key [RECIPES_KEY]: [slot] is
    the stored value ([None] when the key is absent), [faults] schedules
    the failures of the coming operations (the head decides the next
    [kv.get] or [kv.set]; no entry means success), and [trace] records
    every operation attempted. *)
Inductive kv_event : Type :=
| KvGet
| KvSet (v : list Recipe).

Record world : Type := mkWorld {
  slot : option (list Recipe);
  faults : list bool;
  trace : list kv_event
}.

Definition M (A : Type) : Type := world -> outcome A * world.

Definition ret {A : Type} (a : A) : M A := fun w => (Ok a, w).

Definition bind {A B : Type} (m : M A) (k : A -> M B) : M B :=
  fun w =>
    match m w with
    | (Ok a, w') => k a w'
    | (Throw, w') => (Throw, w')
    end.

Definition lift {A : Type} (o : outcome A) : M A := fun w => (o, w).

Notation "x <- m ;; k" := (bind m (fun x => k))
  (at level 61, m at next level, right associativity).

Definition next_fault (w : world) : bool :=
  match faults w with
  | [] => false
  | f :: _ => f
  end.

(** [await kv.get<Recipe[]>(RECIPES_KEY)]. *)
Definition kv_get : M (option (list Recipe)) :=
  fun w =>
    let w' := {| slot := slot w; faults := tl (faults w);
                 trace := (trace w ++ [KvGet])%list |} in
    if next_fault w then (Throw, w') else (Ok (slot w), w').

(** [await kv.set(RECIPES_KEY, v)]. *)
Definition kv_set (v : list Recipe) : M unit :=
  fun w =>
    if next_fault w
    then (Throw, {| slot := slot w; faults := tl (faults w);
                    trace := (trace w ++ [KvSet v])%list |})
    else (Ok tt, {| slot := Some v; faults := tl (faults w);
                    trace := (trace w ++ [KvSet v])%list |}).

(** [x || []]. *)
Definition or_empty (x : option (list Recipe)) : list Recipe :=
  match x with
  | Some l => l
  | None => []
  end.

(** What a handler answers: the JSON body and the status of
    [NextResponse.json(body, { status })] (200 when not given). *)
Inductive payload : Type :=
| PList (l : list Recipe)
| POne (r : Recipe)
| PError (message : string)
| PSuccess.

Record response : Type := mkResponse {
  status : Z;
  body : payload
}.

(** [try { ... } catch (error) { return fallback }]. *)
Definition try_catch (m : M response) (fallback : response)
  : world -> response * world :=
  fun w =>
    match m w with
    | (Ok r, w') => (r, w')
    | (Throw, w') => (fallback, w')
    end.

(** [GET], lines 7-15. *)
Definition GET : world -> response * world :=
  try_catch
    (stored <- kv_get ;;
     ret {| status := 200; body := PList (or_empty stored) |})
    {| status := 500; body := PList [] |}.

(** [POST], lines 17-50.  [req] is what [request.json()] gives ([None]
    when the body is not JSON), [uuid] the result of
    [crypto.randomUUID()], and [now1], [now2] the readings of the two
    calls of [Date.now()], in the order of evaluation. *)
Definition POST (req : option jsval) (uuid : string) (now1 now2 : Z)
  : world -> response * world :=
  try_catch
    (b <- lift (match req with Some b => Ok b | None => Throw end) ;;
     title_ <- lift (destructure "title" b) ;;
     content_ <- lift (destructure "content" b) ;;
     if negb (truthy title_) || negb (truthy content_)
     then ret {| status := 400;
                 body := PError "Title and content are required" |}
     else
       stored <- kv_get ;;
       let recipes := or_empty stored in
       let newRecipe := {| id := uuid; title := title_; content := content_;
                           createdAt := now1; updatedAt := now2 |} in
       let recipes := (recipes ++ [newRecipe])%list in
       _ <- kv_set recipes ;;
       ret {| status := 201; body := POne newRecipe |})
    {| status := 500; body := PError "Failed to create recipe" |}.

(** [r.id === id], for the string [r.id] and the JSON value [id]. *)
Definition strict_eq (rid : string) (v : jsval) : bool :=
  match v with
  | JStr s => String.eqb rid s
  | _ => false
  end.

(** [recipes.findIndex(p)]; [None] stands for [-1]. *)
Fixpoint findIndex (p : Recipe -> bool) (l : list Recipe) : option nat :=
  match l with
  | [] => None
  | r :: rest =>
      if p r then Some O
      else match findIndex p rest with
           | Some i => Some (S i)
           | None => None
           end
  end.

(** [recipes[index] = r'], for an index within the array. *)
Fixpoint assign (index : nat) (r' : Recipe) (l : list Recipe) : list Recipe :=
  match l, index with
  | [], _ => []
  | _ :: rest, O => r' :: rest
  | r :: rest, S i => r :: assign i r' rest
  end.

(** [PUT], lines 52-91; [now] is the reading of [Date.now()]. *)
Definition PUT (req : option jsval) (now : Z) : world -> response * world :=
  try_catch
    (b <- lift (match req with Some b => Ok b | None => Throw end) ;;
     id_ <- lift (destructure "id" b) ;;
     title_ <- lift (destructure "title" b) ;;
     content_ <- lift (destructure "content" b) ;;
     if negb (truthy id_) || negb (truthy title_) || negb (truthy content_)
     then ret {| status := 400;
                 body := PError "ID, title, and content are required" |}
     else
       stored <- kv_get ;;
       let recipes := or_empty stored in
       match findIndex (fun r => strict_eq (id r) id_) recipes with
       | None => ret {| status := 404; body := PError "Recipe not found" |}
       | Some index =>
           match nth_error recipes index with
           | None => lift Throw (* not reached: [index] was found *)
           | Some old =>
               let updated := {| id := id old; title := title_;
                                 content := content_;
                                 createdAt := createdAt old;
                                 updatedAt := now |} in
               let recipes := assign index updated recipes in
               _ <- kv_set recipes ;;
               ret {| status := 200; body := POne updated |}
           end
       end)
    {| status := 500; body := PError "Failed to update recipe" |}.

(** [DELETE], lines 93-125; [id_] is [searchParams.get('id')], [None]
    for [null]. *)
Definition DELETE (id_ : option string) : world -> response * world :=
  try_catch
    (match id_ with
     | None => ret {| status := 400; body := PError "ID is required" |}
     | Some i =>
         if String.eqb i ""
         then ret {| status := 400; body := PError "ID is required" |}
         else
           stored <- kv_get ;;
           let recipes := or_empty stored in
           let filteredRecipes :=
             filter (fun r => negb (String.eqb (id r) i)) recipes in
           if Nat.eqb (List.length recipes) (List.length filteredRecipes)
           then ret {| status := 404; body := PError "Recipe not found" |}
           else
             _ <- kv_set filteredRecipes ;;
             ret {| status := 200; body := PSuccess |}
     end)
    {| status := 500; body := PError "Failed to delete recipe" |}.

(** No failure is scheduled for the store. *)
Definition fault_free (w : world) : Prop := Forall (fun f => f = false) (faults w).

End Recipes.

(** ** Loading the stopwatches on first mount ([src/app/page.tsx]) *)

Module Persistence.
Import Stopwatch.

(** The list the first-mount effect installs when nothing is stored,
    lines 54-62. *)
Definition seed (uuid : string) : list t :=
  [ {| id := uuid; name := "Stopwatch 1"; isRunning := false;
       startedAt := None; elapsed := 0 |} ].

(** The first-mount effect, lines 47-67.  [raw] is what
    [localStorage.getItem(STORAGE_KEY)] gives ([Throw] when the access
    throws, [None] for [null]), [parsed] what [JSON.parse(raw)] gives,
    [uuid] the result of [crypto.randomUUID()] and [current] the state
    before the effect (the empty list of [useState]).  An exception is
    logged and the state is left as it is. *)
Definition load (raw : Recipes.outcome (option string))
  (parsed : Recipes.outcome (list t)) (uuid : string) (current : list t)
  : list t :=
  match raw with
  | Recipes.Throw => current
  | Recipes.Ok None => seed uuid
  | Recipes.Ok (Some text) =>
      if String.eqb text "" then seed uuid
      else match parsed with
           | Recipes.Ok l => l
           | Recipes.Throw => current
           end
  end.

End Persistence.

(** ** The stored collection *)

Module Collection.
Import Recipes.

(** The collection without the recipes of id [i]: the [filteredRecipes]
    of [DELETE]. *)
Definition without (i : string) (l : list Recipe) : list Recipe :=
  filter (fun r => negb (String.eqb (id r) i)) l.

(** The ids of the stored recipes, in order ([] when the key is absent). *)
Definition ids (w : world) : list string := map id (or_empty (slot w)).

End Collection.

(** ** The recipe viewer ([src/app/components/RecipeViewer.tsx]) *)

Module Viewer.
Import Recipes.

(** The component's state, lines 10-13. *)
Record state : Type := mkState {
  recipes : list Recipe;
  selectedRecipe : option Recipe;
  loading : bool;
  isExpanded : bool
}.

Definition initial : state :=
  {| recipes := []; selectedRecipe := None; loading := true;
     isExpanded := false |}.

(** [response.ok]: the status is in the range 200-299. *)
Definition ok (r : response) : bool :=
  (200 <=? status r) && (status r <=? 299).

(** [fetchRecipes], lines 19-35, once it has settled.  [resp] is what
    [fetch("/api/recipes")] resolves to ([Throw] when it rejects) and
    [st] the state the call closed over.  The route answers a list to
    every GET, so the branch of another payload is not reached. *)
Definition fetchRecipes (resp : outcome response) (st : state) : state :=
  let failed := {| recipes := recipes st;
                   selectedRecipe := selectedRecipe st;
                   loading := false; isExpanded := isExpanded st |} in
  match resp with
  | Throw => failed
  | Ok r =>
      if negb (ok r) then failed
      else match body r with
           | PList data =>
               {| recipes := data;
                  selectedRecipe :=
                    match data, selectedRecipe st with
                    | first :: _, None => Some first
                    | _, selected => selected
                    end;
                  loading := false;
                  isExpanded := isExpanded st |}
           | _ => failed
           end
  end.

(** The [onChange] of the selector, lines 106-109: [recipes.find] gives
    the first recipe with the chosen id, [recipe || null] the selection. *)
Definition onChange (value : string) (st : state) : state :=
  {| recipes := recipes st;
     selectedRecipe := find (fun r => String.eqb (id r) value) (recipes st);
     loading := loading st;
     isExpanded := isExpanded st |}.

(** The [value] of the selector, line 105: [selectedRecipe?.id || '']. *)
Definition selectValue (st : state) : string :=
  match selectedRecipe st with
  | Some r => id r
  | None => ""
  end.

(** The Expand / Collapse button, line 119. *)
Definition toggleExpanded (st : state) : state :=
  {| recipes := recipes st; selectedRecipe := selectedRecipe st;
     loading := loading st; isExpanded := negb (isExpanded st) |}.

(** The line feed ["\n"]. *)
Definition LF : ascii := ascii_of_nat 10.

(** [content.split('\n')]. *)
Fixpoint split (sep : ascii) (text : string) : list string :=
  match text with
  | EmptyString => [EmptyString]
  | String c rest =>
      if Ascii.eqb c sep then EmptyString :: split sep rest
      else match split sep rest with
           | [] => [String c EmptyString]
           | line :: lines => String c line :: lines
           end
  end.

(** What the content block renders, lines 132-137: each line, followed
    by [<br />] when it is not the last. *)
Inductive node : Type :=
| Text (line : string)
| Br.

Fixpoint renderLines (lines : list string) (i total : nat) : list node :=
  match lines with
  | [] => []
  | line :: rest =>
      (Text line :: (if Nat.ltb i (total - 1) then [Br] else []))
        ++ renderLines rest (S i) total
  end%list.

Definition renderContent (text : string) : list node :=
  renderLines (split LF text) 0 (List.length (split LF text)).

(** The text a rendering shows, a line break for each [<br />]. *)
Fixpoint shown (nodes : list node) : string :=
  match nodes with
  | [] => EmptyString
  | Text line :: rest => line ++ shown rest
  | Br :: rest => String LF (shown rest)
  end.

(** The lines joined by line feeds: [lines.join("\n")]. *)
Fixpoint joinLines (lines : list string) : string :=
  match lines with
  | [] => EmptyString
  | [line] => line
  | line :: rest => line ++ String LF (joinLines rest)
  end.

Definition isBr (n : node) : bool :=
  match n with
  | Br => true
  | Text _ => false
  end.

Fixpoint countChar (c : ascii) (text : string) : nat :=
  match text with
  | EmptyString => O
  | String c' rest => ((if Ascii.eqb c' c then 1 else 0) + countChar c rest)%nat
  end.

End Viewer.

(** * Properties of the stopwatch store *)

Module StopwatchFacts.
Import Stopwatch.

Lemma computedElapsed_stopped (now : Z) (sw : t) :
  isRunning sw = false -> computedElapsed now sw = elapsed sw.
Proof. unfold computedElapsed; intros ->; reflexivity. Qed.

Lemma computedElapsed_running (now s : Z) (sw : t) :
  isRunning sw = true -> startedAt sw = Some s ->
  computedElapsed now sw = elapsed sw + (now - s).
Proof. unfold computedElapsed; intros -> ->; reflexivity. Qed.

Lemma computedElapsed_no_start (now : Z) (sw : t) :
  startedAt sw = None -> computedElapsed now sw = elapsed sw.
Proof. unfold computedElapsed; intros ->; destruct (isRunning sw); reflexivity. Qed.

Lemma computedElapsed_mono (sw : t) (t1 t2 : Z) :
  t1 <= t2 -> computedElapsed t1 sw <= computedElapsed t2 sw.
Proof.
  unfold computedElapsed.
  destruct (isRunning sw), (startedAt sw); lia.
Qed.

(** What the guard [sw.isRunning && sw.startedAt != null] computes on any
    record of type [Stopwatch], also one that breaks the invariant. *)
Lemma computedElapsed_spec (sw : t) (now s : Z) :
  (isRunning sw = false -> computedElapsed now sw = elapsed sw) /\
  (isRunning sw = true -> startedAt sw = Some s ->
   computedElapsed now sw = elapsed sw + (now - s)) /\
  (isRunning sw = true -> startedAt sw = None ->
   computedElapsed now sw = elapsed sw) /\
  (forall t1 t2 : Z, t1 <= t2 ->
   computedElapsed t1 sw <= computedElapsed t2 sw).
Proof.
  repeat split.
  - apply computedElapsed_stopped.
  - apply computedElapsed_running.
  - intros _. apply computedElapsed_no_start.
  - intros t1 t2. apply computedElapsed_mono.
Qed.

(** C1: for every stopwatch record [sw] of the data model (a running
    record has a start time) and every current time [now],
    [computedElapsed sw] at [now] is [elapsed] when [isRunning] is false
    and [elapsed + (now - startedAt)] when [isRunning] is true, and the
    value is monotonically non-decreasing in the time of evaluation. *)
Theorem computedElapsed_on_records (sw : t) :
  wf sw ->
  (isRunning sw = false ->
   forall now : Z, computedElapsed now sw = elapsed sw) /\
  (isRunning sw = true ->
   exists s : Z,
     startedAt sw = Some s /\
     forall now : Z, computedElapsed now sw = elapsed sw + (now - s)) /\
  (forall t1 t2 : Z, t1 <= t2 ->
   computedElapsed t1 sw <= computedElapsed t2 sw).
Proof.
  intros Hwf. repeat split.
  - intros Hstopped now. now apply computedElapsed_stopped.
  - intros Hrun. destruct (startedAt sw) as [s|] eqn:Hst.
    + exists s. split; [reflexivity|].
      intros now. now apply computedElapsed_running.
    + exfalso. exact (Hwf Hrun Hst).
  - intros t1 t2. apply computedElapsed_mono.
Qed.

Lemma computedElapsed_on_records_witness :
  let sw := {| id := "a"; name := "Eggs"; isRunning := true;
               startedAt := Some 1000; elapsed := 250 |} in
  (exists s : Z,
     startedAt sw = Some s /\
     forall now : Z, computedElapsed now sw = elapsed sw + (now - s)) /\
  computedElapsed 4000 sw <= computedElapsed 4020 sw.
Proof.
  cbv zeta.
  assert (Hwf : wf {| id := "a"; name := "Eggs"; isRunning := true;
                      startedAt := Some 1000; elapsed := 250 |})
    by (unfold wf; cbn; discriminate).
  split.
  - exact (proj1 (proj2 (computedElapsed_on_records _ Hwf)) eq_refl).
  - apply (proj2 (proj2 (computedElapsed_on_records _ Hwf))). lia.
Defined.

(** The three steps of C2 on one record. *)
Lemma stop_start_stop1 (sw : t) (s t1 t2 t3 : Z) :
  isRunning sw = true -> startedAt sw = Some s ->
  stop1 t3 (id sw) (start1 t2 (id sw) (stop1 t1 (id sw) sw)) =
  {| id := id sw; name := name sw; isRunning := false; startedAt := None;
     elapsed := elapsed sw + (t1 - s) + (t3 - t2) |}.
Proof.
  intros Hrun Hst.
  unfold stop1 at 2. rewrite String.eqb_refl, Hrun, Hst. cbn [andb].
  unfold start1. cbn [id isRunning negb]. rewrite String.eqb_refl. cbn [andb].
  unfold stop1. cbn [id isRunning startedAt]. rewrite String.eqb_refl.
  reflexivity.
Qed.

(** C2: on a running stopwatch ([isRunning = true], [startedAt = s],
    [elapsed = e]) found in the list, [stop] at [t1], then [start] at [t2],
    then [stop] at [t3] leave at its place the record with
    [elapsed = e + (t1 - s) + (t3 - t2)], [isRunning = false] and
    [startedAt = null] (for all times, so for [t1 <= t2 <= t3]). *)
Theorem stop_start_stop_accumulates
  (l : list t) (i : nat) (sw : t) (s t1 t2 t3 : Z) :
  nth_error l i = Some sw ->
  isRunning sw = true ->
  startedAt sw = Some s ->
  nth_error (stop t3 (id sw) (start t2 (id sw) (stop t1 (id sw) l))) i =
  Some {| id := id sw; name := name sw; isRunning := false;
          startedAt := None;
          elapsed := elapsed sw + (t1 - s) + (t3 - t2) |}.
Proof.
  intros Hnth Hrun Hst.
  unfold stop, start. rewrite !map_map.
  rewrite (map_nth_error _ _ _ Hnth).
  f_equal. now apply stop_start_stop1.
Qed.

Lemma stop_start_stop_accumulates_witness :
  nth_error
    (stop 9000 "b" (start 7000 "b" (stop 5000 "b"
       [ {| id := "a"; name := "Rice"; isRunning := false;
            startedAt := None; elapsed := 10 |};
         {| id := "b"; name := "Eggs"; isRunning := true;
            startedAt := Some 1000; elapsed := 250 |} ]))) 1 =
  Some {| id := "b"; name := "Eggs"; isRunning := false; startedAt := None;
          elapsed := 250 + (5000 - 1000) + (9000 - 7000) |}.
Proof.
  exact (stop_start_stop_accumulates
           [ {| id := "a"; name := "Rice"; isRunning := false;
                startedAt := None; elapsed := 10 |};
             {| id := "b"; name := "Eggs"; isRunning := true;
                startedAt := Some 1000; elapsed := 250 |} ]
           1
           {| id := "b"; name := "Eggs"; isRunning := true;
              startedAt := Some 1000; elapsed := 250 |}
           1000 5000 7000 9000 eq_refl eq_refl eq_refl).
Defined.

(** *** The invariant *)

Lemma wf_start1 (now : Z) (target : string) (sw : t) :
  wf sw -> wf (start1 now target sw).
Proof.
  unfold wf, start1. intros H.
  destruct (String.eqb (id sw) target && negb (isRunning sw))%bool; cbn.
  - discriminate.
  - exact H.
Qed.

Lemma wf_stop1 (now : Z) (target : string) (sw : t) :
  wf sw -> wf (stop1 now target sw).
Proof.
  unfold wf, stop1. intros H.
  destruct (String.eqb (id sw) target && isRunning sw)%bool; [|exact H].
  destruct (startedAt sw) eqn:E; cbn.
  - discriminate.
  - rewrite E. exact H.
Qed.

Lemma wf_reset1 (target : string) (sw : t) :
  wf sw -> wf (reset1 target sw).
Proof.
  unfold wf, reset1. intros H.
  destruct (String.eqb (id sw) target); cbn; [discriminate | exact H].
Qed.

Lemma wf_rename1 (target new_name : string) (sw : t) :
  wf sw -> wf (rename1 target new_name sw).
Proof.
  unfold wf, rename1. intros H.
  destruct (String.eqb (id sw) target); cbn; exact H.
Qed.

Lemma Forall_wf_map (f : t -> t) (l : list t) :
  (forall sw, wf sw -> wf (f sw)) -> Forall wf l -> Forall wf (map f l).
Proof.
  intros Hf Hl. induction Hl as [|sw l Hsw _ IH]; cbn; constructor; auto.
Qed.

(** C4: if every record of the list satisfies
    [isRunning = true => startedAt <> null], so does every record of the
    list that [addStopwatch], [deleteStopwatch], [start], [stop], [reset]
    or [rename] yields. *)
Theorem invariant_preserved
  (l : list t) (uuid target new_name : string) (now : Z) :
  Forall wf l ->
  Forall wf (addStopwatch uuid l) /\
  Forall wf (deleteStopwatch target l) /\
  Forall wf (start now target l) /\
  Forall wf (stop now target l) /\
  Forall wf (reset target l) /\
  Forall wf (rename target new_name l).
Proof.
  intros Hl. repeat split.
  - unfold addStopwatch. apply Forall_app. split; [exact Hl|].
    constructor; [|constructor]. unfold wf; cbn. discriminate.
  - unfold deleteStopwatch. rewrite Forall_forall in *.
    intros sw Hin. apply filter_In in Hin. apply Hl, Hin.
  - apply Forall_wf_map; [intros; now apply wf_start1 | exact Hl].
  - apply Forall_wf_map; [intros; now apply wf_stop1 | exact Hl].
  - apply Forall_wf_map; [intros; now apply wf_reset1 | exact Hl].
  - apply Forall_wf_map; [intros; now apply wf_rename1 | exact Hl].
Qed.

Lemma wf_example :
  Forall wf [ {| id := "a"; name := "Rice"; isRunning := false;
                 startedAt := None; elapsed := 10 |};
              {| id := "b"; name := "Eggs"; isRunning := true;
                 startedAt := Some 1000; elapsed := 250 |} ].
Proof.
  repeat constructor; unfold wf; cbn; discriminate.
Defined.

Lemma invariant_preserved_witness :
  Forall wf
    (start 2000 "a"
       [ {| id := "a"; name := "Rice"; isRunning := false;
            startedAt := None; elapsed := 10 |};
         {| id := "b"; name := "Eggs"; isRunning := true;
            startedAt := Some 1000; elapsed := 250 |} ]).
Proof.
  exact (proj1 (proj2 (proj2
           (invariant_preserved _ "u" "a" "Tea" 2000 wf_example)))).
Defined.

(** *** Reset *)

(** C5: [reset target] keeps the length of the list and turns each record
    whose id is [target], whatever its state, into the record with the
    same id and name and with [elapsed = 0], [isRunning = false],
    [startedAt = null]. *)
Theorem reset_target
  (l : list t) (target : string) (i : nat) (sw : t) :
  nth_error l i = Some sw ->
  id sw = target ->
  List.length (reset target l) = List.length l /\
  nth_error (reset target l) i =
  Some {| id := id sw; name := name sw; isRunning := false;
          startedAt := None; elapsed := 0 |}.
Proof.
  intros Hnth Hid. unfold reset. split.
  - apply length_map.
  - rewrite (map_nth_error _ _ _ Hnth). f_equal.
    unfold reset1. rewrite Hid, String.eqb_refl. reflexivity.
Qed.

Lemma reset_target_witness :
  nth_error
    (reset "b"
       [ {| id := "a"; name := "Rice"; isRunning := false;
            startedAt := None; elapsed := 10 |};
         {| id := "b"; name := "Eggs"; isRunning := true;
            startedAt := Some 1000; elapsed := 250 |} ]) 1 =
  Some {| id := "b"; name := "Eggs"; isRunning := false;
          startedAt := None; elapsed := 0 |}.
Proof.
  exact (proj2 (reset_target
           [ {| id := "a"; name := "Rice"; isRunning := false;
                startedAt := None; elapsed := 10 |};
             {| id := "b"; name := "Eggs"; isRunning := true;
                startedAt := Some 1000; elapsed := 250 |} ]
           "b" 1
           {| id := "b"; name := "Eggs"; isRunning := true;
              startedAt := Some 1000; elapsed := 250 |}
           eq_refl eq_refl)).
Defined.

(** *** Frame *)

(** An operation that maps a callback over the list, the callback keeping
    ids and returning the other records as they are. *)
Section MapFrame.
Variable target : string.
Variable f : t -> t.
Hypothesis f_id : forall sw, id (f sw) = id sw.
Hypothesis f_other : forall sw, String.eqb (id sw) target = false -> f sw = sw.

Lemma map_frame_ids (l : list t) : map id (map f l) = map id l.
Proof.
  rewrite map_map. apply map_ext. exact f_id.
Qed.

Lemma map_frame_others (l : list t) : others target (map f l) = others target l.
Proof.
  unfold others. induction l as [|sw l IH]; cbn; [reflexivity|].
  rewrite f_id. destruct (String.eqb (id sw) target) eqn:E; cbn.
  - exact IH.
  - rewrite (f_other sw E), IH. reflexivity.
Qed.

Lemma map_frame_nth (l : list t) (i : nat) (sw : t) :
  nth_error l i = Some sw -> String.eqb (id sw) target = false ->
  nth_error (map f l) i = Some sw.
Proof.
  intros Hnth E. rewrite (map_nth_error _ _ _ Hnth), (f_other sw E).
  reflexivity.
Qed.

End MapFrame.

Lemma start1_id now target sw : id (start1 now target sw) = id sw.
Proof. unfold start1. destruct (_ && _)%bool; reflexivity. Qed.

Lemma start1_other now target sw :
  String.eqb (id sw) target = false -> start1 now target sw = sw.
Proof. unfold start1. intros ->. reflexivity. Qed.

Lemma stop1_id now target sw : id (stop1 now target sw) = id sw.
Proof.
  unfold stop1. destruct (_ && _)%bool; [|reflexivity].
  destruct (startedAt sw); reflexivity.
Qed.

Lemma stop1_other now target sw :
  String.eqb (id sw) target = false -> stop1 now target sw = sw.
Proof. unfold stop1. intros ->. reflexivity. Qed.

Lemma reset1_id target sw : id (reset1 target sw) = id sw.
Proof. unfold reset1. destruct (String.eqb _ _); reflexivity. Qed.

Lemma reset1_other target sw :
  String.eqb (id sw) target = false -> reset1 target sw = sw.
Proof. unfold reset1. intros ->. reflexivity. Qed.

Lemma rename1_id target new_name sw : id (rename1 target new_name sw) = id sw.
Proof. unfold rename1. destruct (String.eqb _ _); reflexivity. Qed.

Lemma rename1_other target new_name sw :
  String.eqb (id sw) target = false -> rename1 target new_name sw = sw.
Proof. unfold rename1. intros ->. reflexivity. Qed.

Lemma others_idem target l : others target (others target l) = others target l.
Proof.
  unfold others. induction l as [|sw l IH]; cbn; [reflexivity|].
  destruct (String.eqb (id sw) target) eqn:E; cbn; [exact IH|].
  rewrite E. cbn. now rewrite IH.
Qed.

(** C10: the records whose id differs from the target are, after
    [start], [stop], [reset], [rename] and [deleteStopwatch], the same
    records in the same order ([others] of the result is [others] of the
    list); the four mapping operations keep every such record at its
    index and keep the sequence of ids, and [deleteStopwatch] returns
    exactly those records. *)
Theorem frame (l : list t) (target new_name : string) (now : Z) :
  (others target (start now target l) = others target l /\
   others target (stop now target l) = others target l /\
   others target (reset target l) = others target l /\
   others target (rename target new_name l) = others target l /\
   others target (deleteStopwatch target l) = others target l) /\
  (map id (start now target l) = map id l /\
   map id (stop now target l) = map id l /\
   map id (reset target l) = map id l /\
   map id (rename target new_name l) = map id l) /\
  (forall i sw, nth_error l i = Some sw -> id sw <> target ->
     nth_error (start now target l) i = Some sw /\
     nth_error (stop now target l) i = Some sw /\
     nth_error (reset target l) i = Some sw /\
     nth_error (rename target new_name l) i = Some sw) /\
  (forall sw, In sw (deleteStopwatch target l) <->
              In sw l /\ id sw <> target).
Proof.
  split; [|split; [|split]].
  - repeat split.
    + apply map_frame_others; [apply start1_id | apply start1_other].
    + apply map_frame_others; [apply stop1_id | apply stop1_other].
    + apply map_frame_others; [apply reset1_id | apply reset1_other].
    + apply map_frame_others; [apply rename1_id | apply rename1_other].
    + apply others_idem.
  - repeat split; apply map_frame_ids.
    + apply start1_id.
    + apply stop1_id.
    + apply reset1_id.
    + apply rename1_id.
  - intros i sw Hnth Hne.
    assert (E : String.eqb (id sw) target = false)
      by (apply String.eqb_neq; exact Hne).
    repeat split.
    + apply (map_frame_nth target); [apply start1_other | exact Hnth | exact E].
    + apply (map_frame_nth target); [apply stop1_other | exact Hnth | exact E].
    + apply (map_frame_nth target); [apply reset1_other | exact Hnth | exact E].
    + apply (map_frame_nth target); [apply rename1_other | exact Hnth | exact E].
  - intros sw. unfold deleteStopwatch. rewrite filter_In.
    rewrite negb_true_iff, String.eqb_neq. reflexivity.
Qed.

Lemma frame_witness :
  nth_error
    (stop 5000 "b"
       [ {| id := "a"; name := "Rice"; isRunning := true;
            startedAt := Some 7; elapsed := 10 |};
         {| id := "b"; name := "Eggs"; isRunning := true;
            startedAt := Some 1000; elapsed := 250 |} ]) 0 =
  Some {| id := "a"; name := "Rice"; isRunning := true;
          startedAt := Some 7; elapsed := 10 |}.
Proof.
  refine (proj1 (proj2 (proj1 (proj2 (proj2
            (frame
               [ {| id := "a"; name := "Rice"; isRunning := true;
                    startedAt := Some 7; elapsed := 10 |};
                 {| id := "b"; name := "Eggs"; isRunning := true;
                    startedAt := Some 1000; elapsed := 250 |} ]
               "b" "Tea" 5000)))
            0%nat
            {| id := "a"; name := "Rice"; isRunning := true;
               startedAt := Some 7; elapsed := 10 |}
            eq_refl _))).
  cbn. discriminate.
Defined.

End StopwatchFacts.

(** * The time formatter *)

Module FormatFacts.
Import Js Stopwatch.

Lemma length_append (a b : string) :
  String.length (a ++ b) = (String.length a + String.length b)%nat.
Proof.
  induction a as [|c a IH]; cbn; [reflexivity | now rewrite IH].
Qed.

Lemma pad2_agrees_below_100 : forallb pad2_agrees (seq 0 100) = true.
Proof. vm_compute. reflexivity. Qed.

(** Below 100, [String(n).padStart(2, "0")] is the two digits of [n]. *)
Lemma pad2_two_digits (n : Z) :
  0 <= n < 100 -> padStart 2 "0" (String_ n) = two_digits n.
Proof.
  intros Hn.
  pose proof pad2_agrees_below_100 as H.
  rewrite forallb_forall in H.
  specialize (H (Z.to_nat n)).
  unfold pad2_agrees in H. rewrite Z2Nat.id in H by lia.
  apply String.eqb_eq, H, in_seq. lia.
Qed.

Lemma format_nonneg (ms : Z) :
  0 <= ms ->
  format ms =
  (if 0 <? ms / 3600000
   then padStart 2 "0" (String_ (ms / 3600000)) ++ ":" else "") ++
  two_digits (ms mod 3600000 / 60000) ++ ":" ++
  two_digits (ms mod 60000 / 1000) ++ "." ++
  two_digits (ms mod 1000 / 10).
Proof.
  intros Hms. unfold format.
  destruct (ms <? 0) eqn:E; [apply Z.ltb_lt in E; lia|].
  rewrite !Z.rem_mod_nonneg by lia.
  assert (Hm : 0 <= ms mod 3600000 / 60000 < 100).
  { pose proof (Z.mod_pos_bound ms 3600000 ltac:(lia)).
    split; [apply Z.div_pos; lia | apply Z.div_lt_upper_bound; lia]. }
  assert (Hs : 0 <= ms mod 60000 / 1000 < 100).
  { pose proof (Z.mod_pos_bound ms 60000 ltac:(lia)).
    split; [apply Z.div_pos; lia | apply Z.div_lt_upper_bound; lia]. }
  assert (Hh : 0 <= ms mod 1000 / 10 < 100).
  { pose proof (Z.mod_pos_bound ms 1000 ltac:(lia)).
    split; [apply Z.div_pos; lia | apply Z.div_lt_upper_bound; lia]. }
  rewrite (pad2_two_digits _ Hm), (pad2_two_digits _ Hs),
    (pad2_two_digits _ Hh).
  reflexivity.
Qed.

Lemma format_negative (ms : Z) : ms < 0 -> format ms = "-" ++ format (- ms).
Proof.
  intros Hms. unfold format.
  assert (E1 : (ms <? 0) = true) by (apply Z.ltb_lt; lia).
  assert (E2 : (- ms <? 0) = false) by (apply Z.ltb_ge; lia).
  rewrite E1, E2. reflexivity.
Qed.

(** C3: the three sample renderings; for [0 <= ms] the text is the hour
    segment, then two digits of minutes, [":"], two digits of seconds,
    ["."] and the two digits of [floor((ms mod 1000) / 10)], where the
    hour segment is empty when [floor(ms / 3600000) = 0] and otherwise
    the hours padded to two digits followed by [":"], so that the text is
    the eight characters [MM:SS.hh] exactly when the hours are zero; for
    [ms < 0] the text is ["-"] followed by the text of [- ms]. *)
Theorem format_spec (ms : Z) :
  (format 0 = "00:00.00" /\
   format 61230 = "01:01.23" /\
   format 3661000 = "01:01:01.00") /\
  (0 <= ms ->
   let rest := two_digits (ms mod 3600000 / 60000) ++ ":" ++
               two_digits (ms mod 60000 / 1000) ++ "." ++
               two_digits (ms mod 1000 / 10) in
   (ms / 3600000 = 0 -> format ms = rest) /\
   (ms / 3600000 <> 0 ->
    format ms = padStart 2 "0" (String_ (ms / 3600000)) ++ ":" ++ rest) /\
   (0 < ms / 3600000 < 100 ->
    format ms = two_digits (ms / 3600000) ++ ":" ++ rest) /\
   (String.length (format ms) = 8%nat <-> ms / 3600000 = 0)) /\
  (ms < 0 -> format ms = "-" ++ format (- ms)).
Proof.
  split; [repeat split|split].
  - intros Hms rest.
    pose proof (format_nonneg ms Hms) as F. fold rest in F.
    assert (Hh : 0 <= ms / 3600000) by (apply Z.div_pos; lia).
    assert (Hrest : String.length rest = 8%nat) by reflexivity.
    assert (Hpos : ms / 3600000 <> 0 ->
                   format ms =
                   padStart 2 "0" (String_ (ms / 3600000)) ++ ":" ++ rest).
    { intros Hne. rewrite F.
      destruct (0 <? ms / 3600000) eqn:E;
        [|apply Z.ltb_ge in E; lia].
      generalize (padStart 2 "0" (String_ (ms / 3600000))). intros p.
      induction p as [|c p IH]; cbn; [reflexivity|].
      cbn in IH. now rewrite IH. }
    repeat split.
    + intros H0. rewrite F, H0. reflexivity.
    + exact Hpos.
    + intros Hlt. rewrite Hpos by lia. now rewrite pad2_two_digits by lia.
    + intros Hlen.
      destruct (Z.eq_dec (ms / 3600000) 0) as [|Hne]; [assumption|].
      rewrite (Hpos Hne) in Hlen.
      rewrite !length_append in Hlen. rewrite Hrest in Hlen. cbn in Hlen. lia.
    + intros H0. rewrite F, H0. reflexivity.
  - apply format_negative.
Qed.

Lemma format_spec_witness :
  Stopwatch.format 7384560 = "02:03:04.56" /\
  Stopwatch.format (-61230) = "-" ++ Stopwatch.format 61230.
Proof.
  split.
  - refine (proj1 (proj2 (proj2
              (proj1 (proj2 (format_spec 7384560)) _))) _).
    + lia.
    + vm_compute. split; reflexivity.
  - refine (proj2 (proj2 (format_spec (-61230))) _). reflexivity.
Defined.

End FormatFacts.

(** * The recipe collection service *)

Module RecipeFacts.
Import Recipes.

(** The store after a [kv.get] and after a [kv.set v] that succeeded. *)
Lemma fault_free_next (w : world) : fault_free w -> next_fault w = false.
Proof.
  unfold fault_free, next_fault. intros H.
  destruct (faults w) as [|f fs]; [reflexivity|]. now inversion H.
Qed.

Lemma fault_free_tl (fs : list bool) :
  Forall (fun f => f = false) fs -> Forall (fun f => f = false) (tl fs).
Proof. intros H. destruct H; cbn; [constructor | assumption]. Qed.

Lemma kv_get_ok (w : world) :
  fault_free w ->
  exists w', kv_get w = (Ok (slot w), w') /\
             slot w' = slot w /\
             trace w' = (trace w ++ [KvGet])%list /\
             fault_free w'.
Proof.
  intros H. unfold kv_get. rewrite (fault_free_next w H).
  eexists. split; [reflexivity|]. cbn. repeat split.
  now apply fault_free_tl.
Qed.

Lemma kv_set_ok (v : list Recipe) (w : world) :
  fault_free w ->
  exists w', kv_set v w = (Ok tt, w') /\
             slot w' = Some v /\
             trace w' = (trace w ++ [KvSet v])%list /\
             fault_free w'.
Proof.
  intros H. unfold kv_set. rewrite (fault_free_next w H).
  eexists. split; [reflexivity|]. cbn. repeat split.
  now apply fault_free_tl.
Qed.

Lemma findIndex_none (p : Recipe -> bool) (l : list Recipe) :
  (forall r, In r l -> p r = false) -> findIndex p l = None.
Proof.
  induction l as [|r l IH]; cbn; intros H; [reflexivity|].
  rewrite (H r (or_introl eq_refl)), IH; [reflexivity|].
  intros r' Hin. apply H. now right.
Qed.

(** The index [findIndex] returns is within the array: the [Throw] branch
    of [PUT] after the search is never taken. *)
Lemma findIndex_some (p : Recipe -> bool) (l : list Recipe) (i : nat) :
  findIndex p l = Some i -> exists r, nth_error l i = Some r /\ p r = true.
Proof.
  revert i. induction l as [|r l IH]; cbn; intros i H; [discriminate|].
  destruct (p r) eqn:E.
  - injection H as <-. now exists r.
  - destruct (findIndex p l) as [j|]; [|discriminate].
    injection H as <-. cbn. now apply IH.
Qed.

Ltac step_handler :=
  unfold try_catch, bind, lift, ret; cbn beta iota.




(** C7: the code at the failing input.  [createdAt] and [updatedAt] come
    from two calls of [Date.now()]; at a request during which the clock
    advances from 1000 to 1001 between them, the record created and
    stored has [createdAt = 1000] and [updatedAt = 1001], not two equal
    timestamps. *)
Lemma POST_at_clock_tick :
  let w := {| slot := None; faults := []; trace := [] |} in
  let created := {| id := "r1"; title := JStr "Tea";
                    content := JStr "Boil water";
                    createdAt := 1000; updatedAt := 1001 |} in
  let res := POST (Some (JObj [("title", JStr "Tea");
                               ("content", JStr "Boil water")]))
                  "r1" 1000 1001 w in
  fst res = {| status := 201; body := POne created |} /\
  slot (snd res) = Some [created] /\
  createdAt created <> updatedAt created.
Proof.
  cbv zeta. repeat split. cbn. discriminate.
Qed.

(** Create on an empty collection: for a POST with truthy [title] and
    [content] against an empty stored collection (absent or the empty
    list), the store operations succeeding, the service reads the
    collection, writes back the list of the one new record, which carries
    that title and content, the generated id, [createdAt] the first and
    [updatedAt] the second of the two readings of the current time, and
    answers it with status 201; a GET that follows answers exactly that
    one record. *)
Lemma POST_creates
  (b title_ content_ : jsval) (uuid : string) (now1 now2 : Z) (w : world) :
  destructure "title" b = Ok title_ ->
  destructure "content" b = Ok content_ ->
  truthy title_ = true ->
  truthy content_ = true ->
  or_empty (slot w) = [] ->
  fault_free w ->
  let created := {| id := uuid; title := title_; content := content_;
                    createdAt := now1; updatedAt := now2 |} in
  let res := POST (Some b) uuid now1 now2 w in
  fst res = {| status := 201; body := POne created |} /\
  slot (snd res) = Some [created] /\
  trace (snd res) = (trace w ++ [KvGet; KvSet [created]])%list /\
  (now1 = now2 -> createdAt created = updatedAt created) /\
  fst (GET (snd res)) = {| status := 200; body := PList [created] |} /\
  slot (snd (GET (snd res))) = Some [created].
Proof.
  intros Ht Hc Htt Hct Hempty Hff created res.
  destruct (kv_get_ok w Hff) as (w1 & Hget & Hs1 & Htr1 & Hff1).
  destruct (kv_set_ok [created] w1 Hff1) as (w2 & Hset & Hs2 & Htr2 & Hff2).
  destruct (kv_get_ok w2 Hff2) as (w3 & Hget2 & Hs3 & Htr3 & Hff3).
  assert (Hres : res = ({| status := 201; body := POne created |}, w2)).
  { unfold res, POST. step_handler.
    rewrite Ht, Hc, Htt, Hct. cbn [negb orb].
    rewrite Hget, Hempty. cbn [app]. fold created. rewrite Hset.
    reflexivity. }
  assert (HGET : GET w2 = ({| status := 200; body := PList [created] |}, w3)).
  { unfold GET. step_handler. rewrite Hget2, Hs2. reflexivity. }
  rewrite Hres. cbn [fst snd]. rewrite HGET. cbn [fst snd].
  repeat split.
  - exact Hs2.
  - rewrite Htr2, Htr1, <- app_assoc. reflexivity.
  - intros ->. reflexivity.
  - rewrite Hs3. exact Hs2.
Qed.

(** C8: a PUT whose [id], [title] and [content] are all present (truthy)
    while no stored record has that id is answered with status 404; the
    stored collection is unchanged and the only operation on the store is
    the read, so nothing is written. *)
Theorem PUT_unknown_id
  (b id_ title_ content_ : jsval) (now : Z) (w : world) :
  destructure "id" b = Ok id_ ->
  destructure "title" b = Ok title_ ->
  destructure "content" b = Ok content_ ->
  truthy id_ = true -> truthy title_ = true -> truthy content_ = true ->
  (forall r, In r (or_empty (slot w)) -> strict_eq (id r) id_ = false) ->
  fault_free w ->
  let res := PUT (Some b) now w in
  fst res = {| status := 404; body := PError "Recipe not found" |} /\
  slot (snd res) = slot w /\
  trace (snd res) = (trace w ++ [KvGet])%list.
Proof.
  intros Hi Ht Hc Hit Htt Hct Hnone Hff res.
  destruct (kv_get_ok w Hff) as (w1 & Hget & Hs1 & Htr1 & Hff1).
  assert (Hres : res =
            ({| status := 404; body := PError "Recipe not found" |}, w1)).
  { unfold res, PUT. step_handler.
    rewrite Hi, Ht, Hc, Hit, Htt, Hct. cbn [negb orb].
    rewrite Hget.
    rewrite (findIndex_none _ _ Hnone). reflexivity. }
  rewrite Hres. cbn [fst snd]. auto.
Qed.

Lemma PUT_unknown_id_witness :
  let w := {| slot := Some [ {| id := "r1"; title := JStr "Tea";
                                 content := JStr "Boil water";
                                 createdAt := 5; updatedAt := 5 |} ];
              faults := []; trace := [] |} in
  let res := PUT (Some (JObj [("id", JStr "r9"); ("title", JStr "Soup");
                              ("content", JStr "Simmer")])) 20 w in
  fst res = {| status := 404; body := PError "Recipe not found" |} /\
  slot (snd res) = slot w /\
  trace (snd res) = [KvGet].
Proof.
  cbv zeta.
  refine (PUT_unknown_id
            (JObj [("id", JStr "r9"); ("title", JStr "Soup");
                   ("content", JStr "Simmer")])
            (JStr "r9") (JStr "Soup") (JStr "Simmer") 20
            {| slot := Some [ {| id := "r1"; title := JStr "Tea";
                                 content := JStr "Boil water";
                                 createdAt := 5; updatedAt := 5 |} ];
               faults := []; trace := [] |}
            eq_refl eq_refl eq_refl eq_refl eq_refl eq_refl _
            (Forall_nil _)).
  intros r [<- | []]. reflexivity.
Defined.

(** C9: a DELETE with [id] present, on a stored collection whose only
    recipe has that id, writes back the empty collection and answers
    [{success: true}] with status 200; a second DELETE of the same id is
    answered with status 404 and leaves the empty collection as it is,
    its only operation on the store being the read. *)
Theorem DELETE_only_recipe (i : string) (r : Recipe) (w : world) :
  i <> "" ->
  slot w = Some [r] ->
  id r = i ->
  fault_free w ->
  let res1 := DELETE (Some i) w in
  let res2 := DELETE (Some i) (snd res1) in
  fst res1 = {| status := 200; body := PSuccess |} /\
  slot (snd res1) = Some [] /\
  trace (snd res1) = (trace w ++ [KvGet; KvSet []])%list /\
  fst res2 = {| status := 404; body := PError "Recipe not found" |} /\
  slot (snd res2) = Some [] /\
  trace (snd res2) = (trace (snd res1) ++ [KvGet])%list.
Proof.
  intros Hne Hslot Hid Hff res1 res2.
  apply String.eqb_neq in Hne.
  destruct (kv_get_ok w Hff) as (w1 & Hget & Hs1 & Htr1 & Hff1).
  destruct (kv_set_ok [] w1 Hff1) as (w2 & Hset & Hs2 & Htr2 & Hff2).
  destruct (kv_get_ok w2 Hff2) as (w3 & Hget2 & Hs3 & Htr3 & Hff3).
  assert (H1 : res1 = ({| status := 200; body := PSuccess |}, w2)).
  { unfold res1, DELETE. step_handler. rewrite Hne, Hget, Hslot.
    cbn [or_empty filter]. rewrite Hid, String.eqb_refl.
    cbn [negb List.length Nat.eqb]. rewrite Hset. reflexivity. }
  assert (H2 : res2 =
            ({| status := 404; body := PError "Recipe not found" |}, w3)).
  { unfold res2. rewrite H1. cbn [snd]. unfold DELETE. step_handler.
    rewrite Hne, Hget2, Hs2. reflexivity. }
  rewrite H2, H1. cbn [fst snd].
  repeat split.
  - exact Hs2.
  - rewrite Htr2, Htr1, <- app_assoc. reflexivity.
  - rewrite Hs3. exact Hs2.
  - exact Htr3.
Qed.

Lemma DELETE_only_recipe_witness :
  let w := {| slot := Some [ {| id := "r1"; title := JStr "Tea";
                                 content := JStr "Boil water";
                                 createdAt := 5; updatedAt := 5 |} ];
              faults := []; trace := [] |} in
  fst (DELETE (Some "r1") w) = {| status := 200; body := PSuccess |} /\
  slot (snd (DELETE (Some "r1") w)) = Some [] /\
  fst (DELETE (Some "r1") (snd (DELETE (Some "r1") w))) =
  {| status := 404; body := PError "Recipe not found" |}.
Proof.
  cbv zeta.
  pose proof (DELETE_only_recipe "r1"
                {| id := "r1"; title := JStr "Tea";
                   content := JStr "Boil water";
                   createdAt := 5; updatedAt := 5 |}
                {| slot := Some [ {| id := "r1"; title := JStr "Tea";
                                     content := JStr "Boil water";
                                     createdAt := 5; updatedAt := 5 |} ];
                   faults := []; trace := [] |}
                ltac:(discriminate) eq_refl eq_refl (Forall_nil _)) as H.
  cbv zeta in H.
  split; [exact (proj1 H)|].
  split; [exact (proj1 (proj2 H))|].
  exact (proj1 (proj2 (proj2 (proj2 H)))).
Defined.

End RecipeFacts.

(** * Further properties of the stopwatch store *)

Module StopwatchLaws.
Import Stopwatch.

Lemma start1_idem (t1 t2 : Z) (target : string) (sw : t) :
  start1 t2 target (start1 t1 target sw) = start1 t1 target sw.
Proof.
  unfold start1. destruct sw as [i n r s e]; cbn.
  destruct (String.eqb i target) eqn:E, r; cbn; rewrite ?E; reflexivity.
Qed.

(** Starting a stopwatch that is already running changes nothing: a
    second [start] on the same id, at any later reading of the clock,
    leaves the list of the first [start], start time included. *)
Theorem start_twice (l : list t) (target : string) (t1 t2 : Z) :
  start t2 target (start t1 target l) = start t1 target l.
Proof.
  unfold start. rewrite map_map. apply map_ext. intros sw.
  apply start1_idem.
Qed.

Lemma stop1_idem (t1 t2 : Z) (target : string) (sw : t) :
  stop1 t2 target (stop1 t1 target sw) = stop1 t1 target sw.
Proof.
  unfold stop1. destruct sw as [i n r s e]; cbn.
  destruct (String.eqb i target) eqn:E, r, s; cbn; rewrite ?E; reflexivity.
Qed.

(** Stopping a stopwatch that is not running changes nothing: a second
    [stop] on the same id adds no time to [elapsed]. *)
Theorem stop_twice (l : list t) (target : string) (t1 t2 : Z) :
  stop t2 target (stop t1 target l) = stop t1 target l.
Proof.
  unfold stop. rewrite map_map. apply map_ext. intros sw.
  apply stop1_idem.
Qed.

Lemma start1_display (now : Z) (target : string) (sw : t) :
  computedElapsed now (start1 now target sw) = computedElapsed now sw.
Proof.
  unfold start1, computedElapsed. destruct sw as [i n r s e]; cbn.
  destruct (String.eqb i target), r; cbn; try reflexivity. lia.
Qed.

Lemma stop1_display (now : Z) (target : string) (sw : t) :
  computedElapsed now (stop1 now target sw) = computedElapsed now sw.
Proof.
  unfold stop1, computedElapsed. destruct sw as [i n r s e]; cbn.
  destruct (String.eqb i target), r, s; cbn; reflexivity.
Qed.

Lemma rename1_display (now : Z) (target new_name : string) (sw : t) :
  computedElapsed now (rename1 target new_name sw) = computedElapsed now sw.
Proof.
  unfold rename1, computedElapsed. destruct sw as [i n r s e]; cbn.
  destruct (String.eqb i target); reflexivity.
Qed.

(** At the instant of a [start] or of a [stop] no displayed time jumps:
    evaluated at the reading of the clock the operation used, every
    stopwatch shows what it showed before; [rename] changes no displayed
    time at any instant. *)
Theorem display_continuous
  (l : list t) (target new_name : string) (now later : Z) :
  map (computedElapsed now) (start now target l) = map (computedElapsed now) l /\
  map (computedElapsed now) (stop now target l) = map (computedElapsed now) l /\
  map (computedElapsed later) (rename target new_name l) =
  map (computedElapsed later) l.
Proof.
  unfold start, stop, rename. rewrite !map_map. repeat split; apply map_ext.
  - apply start1_display.
  - apply stop1_display.
  - apply rename1_display.
Qed.

Lemma stop1_frozen (now later : Z) (sw : t) :
  computedElapsed later (stop1 now (id sw) sw) = computedElapsed now sw.
Proof.
  unfold stop1, computedElapsed. destruct sw as [i n r s e]; cbn.
  rewrite String.eqb_refl. destruct r, s; cbn; reflexivity.
Qed.

(** After [stop] the target's displayed time no longer moves: at every
    later instant it shows what it showed at the instant of the stop. *)
Theorem stop_freezes_display
  (l : list t) (i : nat) (sw : t) (now : Z) :
  nth_error l i = Some sw ->
  exists sw',
    nth_error (stop now (id sw) l) i = Some sw' /\
    forall later : Z, computedElapsed later sw' = computedElapsed now sw.
Proof.
  intros Hnth. exists (stop1 now (id sw) sw). split.
  - unfold stop. apply map_nth_error. exact Hnth.
  - intros later. apply stop1_frozen.
Qed.

Lemma stop_freezes_display_witness :
  exists sw',
    nth_error
      (stop 5000 "b"
         [ {| id := "b"; name := "Eggs"; isRunning := true;
              startedAt := Some 1000; elapsed := 250 |} ]) 0 = Some sw' /\
    forall later : Z, computedElapsed later sw' = 4250.
Proof.
  exact (stop_freezes_display
           [ {| id := "b"; name := "Eggs"; isRunning := true;
                startedAt := Some 1000; elapsed := 250 |} ]
           0
           {| id := "b"; name := "Eggs"; isRunning := true;
              startedAt := Some 1000; elapsed := 250 |}
           5000 eq_refl).
Defined.

Lemma start1_running (now later : Z) (sw : t) :
  isRunning sw = false ->
  computedElapsed later (start1 now (id sw) sw) = elapsed sw + (later - now).
Proof.
  unfold start1, computedElapsed. destruct sw as [i n r s e]; cbn.
  intros ->. rewrite String.eqb_refl. reflexivity.
Qed.

(** After [start] on a stopped stopwatch its displayed time is the
    accumulated [elapsed] plus the time since the start, whatever stale
    [startedAt] the record carried. *)
Theorem start_runs_from_elapsed
  (l : list t) (i : nat) (sw : t) (now : Z) :
  nth_error l i = Some sw ->
  isRunning sw = false ->
  exists sw',
    nth_error (start now (id sw) l) i = Some sw' /\
    isRunning sw' = true /\
    forall later : Z,
      computedElapsed later sw' = elapsed sw + (later - now).
Proof.
  intros Hnth Hstopped. exists (start1 now (id sw) sw). repeat split.
  - unfold start. apply map_nth_error. exact Hnth.
  - unfold start1. rewrite String.eqb_refl, Hstopped. reflexivity.
  - intros later. now apply start1_running.
Qed.

Lemma start_runs_from_elapsed_witness :
  exists sw',
    nth_error
      (start 7000 "a"
         [ {| id := "a"; name := "Rice"; isRunning := false;
              startedAt := None; elapsed := 10 |} ]) 0 = Some sw' /\
    isRunning sw' = true /\
    forall later : Z, computedElapsed later sw' = 10 + (later - 7000).
Proof.
  exact (start_runs_from_elapsed
           [ {| id := "a"; name := "Rice"; isRunning := false;
                startedAt := None; elapsed := 10 |} ]
           0
           {| id := "a"; name := "Rice"; isRunning := false;
              startedAt := None; elapsed := 10 |}
           7000 eq_refl eq_refl).
Defined.

(** *** Adding and deleting *)

Lemma delete_absent (l : list t) (target : string) :
  ~ In target (map id l) -> deleteStopwatch target l = l.
Proof.
  unfold deleteStopwatch. induction l as [|sw l IH]; cbn; intros H.
  - reflexivity.
  - destruct (String.eqb (id sw) target) eqn:E.
    + apply String.eqb_eq in E. tauto.
    + cbn. rewrite IH by tauto. reflexivity.
Qed.

(** Deleting an id no stopwatch has is a silent no-op, and deleting
    twice is deleting once. *)
Theorem deleteStopwatch_unknown_id (l : list t) (target : string) :
  (~ In target (map id l) -> deleteStopwatch target l = l) /\
  deleteStopwatch target (deleteStopwatch target l) =
  deleteStopwatch target l.
Proof.
  split; [apply delete_absent|].
  apply delete_absent. intros Hin. apply in_map_iff in Hin.
  destruct Hin as (sw & Hid & Hin). unfold deleteStopwatch in Hin.
  apply filter_In in Hin. destruct Hin as [_ Hne].
  rewrite Hid, String.eqb_refl in Hne. discriminate.
Qed.

Lemma deleteStopwatch_unknown_id_witness :
  deleteStopwatch "z"
    [ {| id := "a"; name := "Rice"; isRunning := false;
         startedAt := None; elapsed := 10 |} ] =
  [ {| id := "a"; name := "Rice"; isRunning := false;
       startedAt := None; elapsed := 10 |} ].
Proof.
  refine (proj1 (deleteStopwatch_unknown_id
            [ {| id := "a"; name := "Rice"; isRunning := false;
                 startedAt := None; elapsed := 10 |} ] "z") _).
  cbn. intros [H | []]. discriminate.
Defined.

(** Adding a stopwatch under a fresh id and deleting that id gives the
    list back; the added stopwatch is the last of the list, stopped at
    zero. *)
Theorem add_then_delete (l : list t) (uuid : string) :
  ~ In uuid (map id l) ->
  deleteStopwatch uuid (addStopwatch uuid l) = l /\
  List.length (addStopwatch uuid l) = S (List.length l) /\
  exists sw,
    nth_error (addStopwatch uuid l) (List.length l) = Some sw /\
    id sw = uuid /\ isRunning sw = false /\
    forall now : Z, computedElapsed now sw = 0.
Proof.
  intros Hfresh. unfold addStopwatch. repeat split.
  - unfold deleteStopwatch. rewrite filter_app. cbn.
    rewrite String.eqb_refl. cbn. rewrite app_nil_r.
    now apply delete_absent.
  - rewrite length_app. cbn. lia.
  - eexists. split.
    + rewrite nth_error_app2 by lia. rewrite Nat.sub_diag. reflexivity.
    + cbn. repeat split.
Qed.

Lemma add_then_delete_witness :
  deleteStopwatch "u"
    (addStopwatch "u"
       [ {| id := "a"; name := "Rice"; isRunning := false;
            startedAt := None; elapsed := 10 |} ]) =
  [ {| id := "a"; name := "Rice"; isRunning := false;
       startedAt := None; elapsed := 10 |} ].
Proof.
  refine (proj1 (add_then_delete
            [ {| id := "a"; name := "Rice"; isRunning := false;
                 startedAt := None; elapsed := 10 |} ] "u" _)).
  cbn. intros [H | []]. discriminate.
Defined.

(** *** Unique ids *)

Section KeepDistinct.
Context {V K : Type}.
Variable key : V -> K.
Variable keep : V -> bool.

(** Dropping items from a list with distinct keys leaves distinct keys. *)
Lemma filter_keeps_distinct :
  forall items : list V,
    NoDup (map key items) -> NoDup (map key (filter keep items)).
Proof.
  intros items. induction items as [|v items IH]; cbn [map filter].
  - intros _. apply NoDup_nil.
  - rewrite NoDup_cons_iff. intros [Hnew Hrest].
    destruct (keep v); cbn [map]; [|now apply IH].
    rewrite NoDup_cons_iff. split; [|now apply IH].
    contradict Hnew. rewrite in_map_iff in *.
    destruct Hnew as (v' & Hkey & Hin). exists v'.
    rewrite filter_In in Hin. tauto.
Qed.

End KeepDistinct.

(** The ids, which the page uses as React keys, stay pairwise distinct:
    [start], [stop], [reset], [rename] and [deleteStopwatch] keep a
    duplicate-free list duplicate-free, and so does [addStopwatch] when
    the generated id is fresh. *)
Theorem ids_stay_unique
  (l : list t) (uuid target new_name : string) (now : Z) :
  NoDup (map id l) ->
  NoDup (map id (start now target l)) /\
  NoDup (map id (stop now target l)) /\
  NoDup (map id (reset target l)) /\
  NoDup (map id (rename target new_name l)) /\
  NoDup (map id (deleteStopwatch target l)) /\
  (~ In uuid (map id l) -> NoDup (map id (addStopwatch uuid l))).
Proof.
  intros Hnd.
  pose proof (StopwatchFacts.map_frame_ids _ (StopwatchFacts.start1_id now target) l) as E1.
  pose proof (StopwatchFacts.map_frame_ids _ (StopwatchFacts.stop1_id now target) l) as E2.
  pose proof (StopwatchFacts.map_frame_ids _ (StopwatchFacts.reset1_id target) l) as E3.
  pose proof (StopwatchFacts.map_frame_ids _ (StopwatchFacts.rename1_id target new_name) l) as E4.
  unfold start, stop, reset, rename. rewrite E1, E2, E3, E4.
  repeat split; try exact Hnd.
  - unfold deleteStopwatch. now apply filter_keeps_distinct.
  - intros Hfresh. unfold addStopwatch. rewrite map_app. cbn.
    apply NoDup_app.
    + exact Hnd.
    + constructor; [intros []|constructor].
    + intros x Hx [<- | []]. exact (Hfresh Hx).
Qed.

Lemma ids_stay_unique_witness :
  NoDup (map id
    (addStopwatch "u"
       [ {| id := "a"; name := "Rice"; isRunning := false;
            startedAt := None; elapsed := 10 |} ])).
Proof.
  refine (proj2 (proj2 (proj2 (proj2 (proj2
            (ids_stay_unique
               [ {| id := "a"; name := "Rice"; isRunning := false;
                    startedAt := None; elapsed := 10 |} ]
               "u" "a" "Tea" 0 _))))) _).
  - cbn. constructor; [intros []|constructor].
  - cbn. intros [H | []]. discriminate.
Defined.

(** *** Operations on different stopwatches *)

Section Commute.
Variables a b : string.
Variables f g : t -> t.
Hypothesis a_b : a <> b.
Hypothesis f_id : forall sw, id (f sw) = id sw.
Hypothesis g_id : forall sw, id (g sw) = id sw.
Hypothesis f_other : forall sw, String.eqb (id sw) a = false -> f sw = sw.
Hypothesis g_other : forall sw, String.eqb (id sw) b = false -> g sw = sw.

Lemma callbacks_commute (sw : t) : f (g sw) = g (f sw).
Proof.
  destruct (String.eqb (id sw) a) eqn:Ea.
  - assert (Eb : String.eqb (id sw) b = false).
    { apply String.eqb_eq in Ea. apply String.eqb_neq. congruence. }
    rewrite (g_other sw Eb). symmetry. apply g_other.
    now rewrite f_id.
  - rewrite (f_other sw Ea). apply f_other. now rewrite g_id.
Qed.

Lemma maps_commute (l : list t) : map f (map g l) = map g (map f l).
Proof.
  rewrite !map_map. apply map_ext. exact callbacks_commute.
Qed.

End Commute.

(** Operations on two different stopwatches do not interfere: applied
    in either order they give the same list, for every pair of [start],
    [stop], [reset] and [rename], one on id [a] and one on id [b] with
    [a <> b] (the pairs with the two operations exchanged are the same
    equations with [a] and [b] exchanged). *)
Theorem distinct_ids_commute
  (l : list t) (a b name_a name_b : string) (ta tb : Z) :
  a <> b ->
  start ta a (start tb b l) = start tb b (start ta a l) /\
  start ta a (stop tb b l) = stop tb b (start ta a l) /\
  start ta a (reset b l) = reset b (start ta a l) /\
  start ta a (rename b name_b l) = rename b name_b (start ta a l) /\
  stop ta a (stop tb b l) = stop tb b (stop ta a l) /\
  stop ta a (reset b l) = reset b (stop ta a l) /\
  stop ta a (rename b name_b l) = rename b name_b (stop ta a l) /\
  reset a (reset b l) = reset b (reset a l) /\
  reset a (rename b name_b l) = rename b name_b (reset a l) /\
  rename a name_a (rename b name_b l) = rename b name_b (rename a name_a l).
Proof.
  intros Hab.
  repeat split; apply (maps_commute a b); try exact Hab;
    auto using StopwatchFacts.start1_id, StopwatchFacts.stop1_id,
      StopwatchFacts.reset1_id, StopwatchFacts.rename1_id,
      StopwatchFacts.start1_other, StopwatchFacts.stop1_other,
      StopwatchFacts.reset1_other, StopwatchFacts.rename1_other.
Qed.

Lemma distinct_ids_commute_witness :
  rename "a" "Tea"
    (rename "b" "Soup"
       [ {| id := "a"; name := "Rice"; isRunning := false;
            startedAt := None; elapsed := 10 |};
         {| id := "b"; name := "Eggs"; isRunning := true;
            startedAt := Some 1; elapsed := 0 |} ]) =
  rename "b" "Soup"
    (rename "a" "Tea"
       [ {| id := "a"; name := "Rice"; isRunning := false;
            startedAt := None; elapsed := 10 |};
         {| id := "b"; name := "Eggs"; isRunning := true;
            startedAt := Some 1; elapsed := 0 |} ]).
Proof.
  refine (proj2 (proj2 (proj2 (proj2 (proj2 (proj2 (proj2 (proj2 (proj2
            (distinct_ids_commute _ "a" "b" "Tea" "Soup" 5 9 _)))))))))).
  discriminate.
Defined.



(** *** First load *)

(** With nothing stored under the key ([null], or the empty string,
    which is falsy) the first-mount effect installs exactly the list
    that [addStopwatch] makes of the empty list: one stopped stopwatch
    named "Stopwatch 1", which satisfies the invariant. *)
Theorem load_seeds_default
  (raw : option string) (parsed : Recipes.outcome (list t))
  (uuid : string) (current : list t) :
  raw = None \/ raw = Some "" ->
  Persistence.load (Recipes.Ok raw) parsed uuid current =
  addStopwatch uuid [] /\
  Forall wf (Persistence.load (Recipes.Ok raw) parsed uuid current).
Proof.
  intros [-> | ->]; cbn; (split; [reflexivity|]);
    repeat constructor; unfold wf; cbn; discriminate.
Qed.

Lemma load_seeds_default_witness :
  Persistence.load (Recipes.Ok (Some "")) Recipes.Throw "u" [] =
  addStopwatch "u" [].
Proof.
  exact (proj1 (load_seeds_default (Some "") Recipes.Throw "u" []
                  (or_intror eq_refl))).
Defined.

(** When the stored text cannot be parsed, or the storage cannot be
    read, the effect swallows the exception and installs nothing: the
    state stays as it was (the empty list on first mount), without the
    default stopwatch. *)
Theorem load_failure_keeps_state
  (raw : Recipes.outcome (option string))
  (parsed : Recipes.outcome (list t)) (text uuid : string)
  (current : list t) :
  raw = Recipes.Throw \/
  (raw = Recipes.Ok (Some text) /\ text <> "" /\ parsed = Recipes.Throw) ->
  Persistence.load raw parsed uuid current = current.
Proof.
  intros [-> | (-> & Hne & ->)]; cbn; [reflexivity|].
  apply String.eqb_neq in Hne. rewrite Hne. reflexivity.
Qed.

Lemma load_failure_keeps_state_witness :
  Persistence.load (Recipes.Ok (Some "{oops")) Recipes.Throw "u" [] = [].
Proof.
  refine (load_failure_keeps_state _ _ "{oops" "u" []
            (or_intror (conj eq_refl (conj _ eq_refl)))).
  discriminate.
Defined.

End StopwatchLaws.

(** * Further properties of the time formatter *)

Module FormatLaws.
Import Js Stopwatch.

Lemma digit_inj (d d' : Z) :
  0 <= d < 10 -> 0 <= d' < 10 -> digit d = digit d' -> d = d'.
Proof.
  unfold digit. intros Hd Hd' E.
  apply (f_equal nat_of_ascii) in E.
  rewrite !nat_ascii_embedding in E by lia. lia.
Qed.

Lemma two_digits_inj (n m : Z) :
  0 <= n < 100 -> 0 <= m < 100 -> two_digits n = two_digits m -> n = m.
Proof.
  unfold two_digits. intros Hn Hm E. injection E as E1 E2.
  apply digit_inj in E1;
    [|split; [apply Z.div_pos; lia | apply Z.div_lt_upper_bound; lia]..].
  apply digit_inj in E2; [|apply Z.mod_pos_bound; lia..].
  rewrite (Z.div_mod n 10), (Z.div_mod m 10) by lia. congruence.
Qed.

(** The display has a resolution of one hundredth of a second: two
    non-negative durations in the same hundredth render the same text,
    and below one hour two durations render the same text only if they
    are in the same hundredth. *)
Theorem format_resolution (a b : Z) :
  0 <= a -> 0 <= b ->
  (a / 10 = b / 10 -> format a = format b) /\
  (a < 3600000 -> b < 3600000 -> format a = format b -> a / 10 = b / 10).
Proof.
  intros Ha Hb. split.
  - intros E.
    rewrite (FormatFacts.format_nonneg a Ha), (FormatFacts.format_nonneg b Hb).
    assert (E1 : a / 3600000 = b / 3600000)
      by (Z.to_euclidean_division_equations; lia).
    assert (E2 : a mod 3600000 / 60000 = b mod 3600000 / 60000)
      by (Z.to_euclidean_division_equations; lia).
    assert (E3 : a mod 60000 / 1000 = b mod 60000 / 1000)
      by (Z.to_euclidean_division_equations; lia).
    assert (E4 : a mod 1000 / 10 = b mod 1000 / 10)
      by (Z.to_euclidean_division_equations; lia).
    rewrite E1, E2, E3, E4. reflexivity.
  - intros Ha' Hb' E.
    rewrite (FormatFacts.format_nonneg a Ha), (FormatFacts.format_nonneg b Hb)
      in E.
    rewrite (Z.div_small a 3600000), (Z.div_small b 3600000) in E by lia.
    cbn [Z.ltb Z.compare append] in E.
    assert (Hm : forall x, 0 <= x < 3600000 -> 0 <= x mod 3600000 / 60000 < 100)
      by (intros; Z.to_euclidean_division_equations; lia).
    assert (Hs : forall x, 0 <= x -> 0 <= x mod 60000 / 1000 < 100)
      by (intros; Z.to_euclidean_division_equations; lia).
    assert (Hh : forall x, 0 <= x -> 0 <= x mod 1000 / 10 < 100)
      by (intros; Z.to_euclidean_division_equations; lia).
    unfold two_digits in E. cbn [append] in E.
    injection E; clear E; intros.
    assert (EM : a mod 3600000 / 60000 = b mod 3600000 / 60000).
    { apply two_digits_inj; [apply Hm; lia | apply Hm; lia|].
      unfold two_digits. congruence. }
    assert (ES : a mod 60000 / 1000 = b mod 60000 / 1000).
    { apply two_digits_inj; [apply Hs; lia | apply Hs; lia|].
      unfold two_digits. congruence. }
    assert (EH : a mod 1000 / 10 = b mod 1000 / 10).
    { apply two_digits_inj; [apply Hh; lia | apply Hh; lia|].
      unfold two_digits. congruence. }
    clear - Ha Hb Ha' Hb' EM ES EH.
    Z.to_euclidean_division_equations. lia.
Qed.

Lemma format_resolution_witness :
  format 61234 = format 61239.
Proof.
  refine (proj1 (format_resolution 61234 61239 _ _) _).
  - lia.
  - lia.
  - reflexivity.
Defined.

End FormatLaws.

(** * Further properties of the recipe collection service *)

Module RecipeLaws.
Import Recipes.
Import RecipeFacts.
Import Collection.

(** ** Runs without a store failure *)

Lemma POST_run
  (b title_ content_ : jsval) (uuid : string) (now1 now2 : Z) (w : world) :
  destructure "title" b = Ok title_ ->
  destructure "content" b = Ok content_ ->
  truthy title_ = true -> truthy content_ = true ->
  fault_free w ->
  let created := {| id := uuid; title := title_; content := content_;
                    createdAt := now1; updatedAt := now2 |} in
  let stored := (or_empty (slot w) ++ [created])%list in
  exists w',
    POST (Some b) uuid now1 now2 w =
    ({| status := 201; body := POne created |}, w') /\
    slot w' = Some stored /\
    trace w' = (trace w ++ [KvGet; KvSet stored])%list /\
    fault_free w'.
Proof.
  intros Ht Hc Htt Hct Hff created stored.
  destruct (kv_get_ok w Hff) as (w1 & Hget & Hs1 & Htr1 & Hff1).
  destruct (kv_set_ok stored w1 Hff1) as (w2 & Hset & Hs2 & Htr2 & Hff2).
  exists w2. repeat split; auto.
  - unfold POST. step_handler.
    rewrite Ht, Hc, Htt, Hct. cbn [negb orb].
    rewrite Hget. fold created. fold stored. rewrite Hset. reflexivity.
  - rewrite Htr2, Htr1, <- app_assoc. reflexivity.
Qed.

Lemma findIndex_first (p : Recipe -> bool) (pre post : list Recipe) (r : Recipe) :
  Forall (fun x => p x = false) pre -> p r = true ->
  findIndex p (pre ++ r :: post) = Some (List.length pre).
Proof.
  intros Hpre Hr. induction Hpre as [|x pre Hx _ IH]; cbn.
  - now rewrite Hr.
  - now rewrite Hx, IH.
Qed.

Lemma assign_middle (pre post : list Recipe) (r r' : Recipe) :
  assign (List.length pre) r' (pre ++ r :: post) = (pre ++ r' :: post)%list.
Proof.
  induction pre as [|x pre IH]; cbn; [reflexivity | now rewrite IH].
Qed.

Lemma nth_error_middle (pre post : list Recipe) (r : Recipe) :
  nth_error (pre ++ r :: post) (List.length pre) = Some r.
Proof.
  induction pre as [|x pre IH]; cbn; [reflexivity | exact IH].
Qed.

Lemma PUT_run
  (b id_ title_ content_ : jsval) (now : Z) (w : world)
  (pre post : list Recipe) (old : Recipe) :
  destructure "id" b = Ok id_ ->
  destructure "title" b = Ok title_ ->
  destructure "content" b = Ok content_ ->
  truthy id_ = true -> truthy title_ = true -> truthy content_ = true ->
  or_empty (slot w) = (pre ++ old :: post)%list ->
  Forall (fun r => strict_eq (id r) id_ = false) pre ->
  strict_eq (id old) id_ = true ->
  fault_free w ->
  let updated := {| id := id old; title := title_; content := content_;
                    createdAt := createdAt old; updatedAt := now |} in
  let stored := (pre ++ updated :: post)%list in
  exists w',
    PUT (Some b) now w = ({| status := 200; body := POne updated |}, w') /\
    slot w' = Some stored /\
    trace w' = (trace w ++ [KvGet; KvSet stored])%list /\
    fault_free w'.
Proof.
  intros Hi Ht Hc Hit Htt Hct Hl Hpre Hold Hff updated stored.
  destruct (kv_get_ok w Hff) as (w1 & Hget & Hs1 & Htr1 & Hff1).
  destruct (kv_set_ok stored w1 Hff1) as (w2 & Hset & Hs2 & Htr2 & Hff2).
  exists w2. repeat split; auto.
  - unfold PUT. step_handler.
    rewrite Hi, Ht, Hc, Hit, Htt, Hct. cbn [negb orb].
    rewrite Hget, Hl.
    rewrite (findIndex_first (fun r => strict_eq (id r) id_) pre post old Hpre Hold).
    rewrite nth_error_middle, assign_middle.
    fold updated. fold stored. rewrite Hset. reflexivity.
  - rewrite Htr2, Htr1, <- app_assoc. reflexivity.
Qed.

Lemma without_length (i : string) (l : list Recipe) :
  (List.length (without i l) <= List.length l)%nat.
Proof.
  unfold without. induction l as [|r l IH]; cbn; [lia|].
  destruct (negb _); cbn; lia.
Qed.

Lemma without_present (i : string) (l : list Recipe) :
  In i (map id l) -> (List.length (without i l) < List.length l)%nat.
Proof.
  unfold without. induction l as [|r l IH]; cbn; [tauto|].
  intros [<- | Hin].
  - rewrite String.eqb_refl. cbn.
    pose proof (without_length (id r) l) as H. unfold without in H. lia.
  - specialize (IH Hin). destruct (negb _); cbn; lia.
Qed.

Lemma without_absent (i : string) (l : list Recipe) :
  ~ In i (map id l) -> without i l = l.
Proof.
  unfold without. induction l as [|r l IH]; cbn; intros H; [reflexivity|].
  destruct (String.eqb (id r) i) eqn:E.
  - apply String.eqb_eq in E. tauto.
  - cbn. rewrite IH by tauto. reflexivity.
Qed.

Lemma without_gone (i : string) (l : list Recipe) :
  ~ In i (map id (without i l)).
Proof.
  intros Hin. apply in_map_iff in Hin. destruct Hin as (r & Hid & Hin).
  apply filter_In in Hin. destruct Hin as [_ Hne].
  rewrite Hid, String.eqb_refl in Hne. discriminate.
Qed.

Lemma DELETE_run_found (i : string) (w : world) :
  i <> "" ->
  In i (map id (or_empty (slot w))) ->
  fault_free w ->
  let stored := without i (or_empty (slot w)) in
  exists w',
    DELETE (Some i) w = ({| status := 200; body := PSuccess |}, w') /\
    slot w' = Some stored /\
    trace w' = (trace w ++ [KvGet; KvSet stored])%list /\
    fault_free w'.
Proof.
  intros Hne Hin Hff stored.
  apply String.eqb_neq in Hne.
  destruct (kv_get_ok w Hff) as (w1 & Hget & Hs1 & Htr1 & Hff1).
  destruct (kv_set_ok stored w1 Hff1) as (w2 & Hset & Hs2 & Htr2 & Hff2).
  exists w2. repeat split; auto.
  - unfold DELETE. step_handler. rewrite Hne, Hget.
    fold (without i (or_empty (slot w))). fold stored.
    pose proof (without_present i _ Hin) as Hlt. fold stored in Hlt.
    destruct (Nat.eqb_spec (List.length (or_empty (slot w)))
                (List.length stored)) as [E|_]; [lia|].
    rewrite Hset. reflexivity.
  - rewrite Htr2, Htr1, <- app_assoc. reflexivity.
Qed.

Lemma DELETE_run_unknown (i : string) (w : world) :
  i <> "" ->
  ~ In i (map id (or_empty (slot w))) ->
  fault_free w ->
  exists w',
    DELETE (Some i) w =
    ({| status := 404; body := PError "Recipe not found" |}, w') /\
    slot w' = slot w /\
    trace w' = (trace w ++ [KvGet])%list /\
    fault_free w'.
Proof.
  intros Hne Hin Hff.
  apply String.eqb_neq in Hne.
  destruct (kv_get_ok w Hff) as (w1 & Hget & Hs1 & Htr1 & Hff1).
  exists w1. repeat split; auto.
  unfold DELETE. step_handler. rewrite Hne, Hget.
  fold (without i (or_empty (slot w))).
  rewrite (without_absent i _ Hin), Nat.eqb_refl. reflexivity.
Qed.

(** ** Runs with any store *)

Ltac split_world w :=
  destruct w as [sl fs tr];
  destruct fs as [|[|] [|[|] fs]].

Ltac run_all :=
  unfold try_catch, bind, lift, ret, kv_get, kv_set, next_fault;
  cbn [slot faults trace tl fst snd status body];
  repeat match goal with
         | |- context [match destructure ?k ?b with _ => _ end] =>
             destruct (destructure k b)
         | |- context [if ?c then _ else _] => destruct c
         | |- context [match findIndex ?p ?l with _ => _ end] =>
             destruct (findIndex p l)
         | |- context [match nth_error ?l ?i with _ => _ end] =>
             destruct (nth_error l i) eqn:?
         end;
  cbn [slot faults trace tl fst snd status body].

Ltac trace_cases :=
  first
    [ left; reflexivity
    | right; left; reflexivity
    | right; right; eexists; rewrite <- app_assoc; reflexivity ].

Lemma POST_any (req : option jsval) (uuid : string) (now1 now2 : Z) (w : world) :
  let res := POST req uuid now1 now2 w in
  (trace (snd res) = trace w \/
   trace (snd res) = (trace w ++ [KvGet])%list \/
   exists v, trace (snd res) = (trace w ++ [KvGet; KvSet v])%list) /\
  (status (fst res) <> 201 -> slot (snd res) = slot w) /\
  (slot (snd res) = slot w \/
   exists r, id r = uuid /\
             slot (snd res) = Some (or_empty (slot w) ++ [r])%list).
Proof.
  cbv zeta. unfold POST. split_world w; destruct req as [b|];
    run_all; (split; [trace_cases|]); (split; [congruence|]);
    first [ left; reflexivity
          | right; eexists; (split; [|reflexivity]); reflexivity ].
Qed.

Lemma PUT_any (req : option jsval) (now : Z) (w : world) :
  let res := PUT req now w in
  (trace (snd res) = trace w \/
   trace (snd res) = (trace w ++ [KvGet])%list \/
   exists v, trace (snd res) = (trace w ++ [KvGet; KvSet v])%list) /\
  (status (fst res) <> 200 -> slot (snd res) = slot w) /\
  (slot (snd res) = slot w \/
   exists i old r,
     nth_error (or_empty (slot w)) i = Some old /\
     id r = id old /\
     slot (snd res) = Some (assign i r (or_empty (slot w)))).
Proof.
  cbv zeta. unfold PUT. split_world w; destruct req as [b|];
    run_all; (split; [trace_cases|]); (split; [congruence|]);
    first [ left; reflexivity
          | right; do 3 eexists;
            split; [eassumption|]; (split; [|reflexivity]); reflexivity ].
Qed.

Lemma DELETE_any (id_ : option string) (w : world) :
  let res := DELETE id_ w in
  (trace (snd res) = trace w \/
   trace (snd res) = (trace w ++ [KvGet])%list \/
   exists v, trace (snd res) = (trace w ++ [KvGet; KvSet v])%list) /\
  (status (fst res) <> 200 -> slot (snd res) = slot w) /\
  (slot (snd res) = slot w \/
   exists i, slot (snd res) = Some (without i (or_empty (slot w)))).
Proof.
  cbv zeta. unfold DELETE. split_world w; destruct id_ as [i|];
    run_all; (split; [trace_cases|]); (split; [congruence|]);
    first [ left; reflexivity | right; eexists; reflexivity ].
Qed.

Lemma GET_any (w : world) :
  let res := GET w in
  trace (snd res) = (trace w ++ [KvGet])%list /\
  slot (snd res) = slot w /\
  (fst res = {| status := 200; body := PList (or_empty (slot w)) |} \/
   fst res = {| status := 500; body := PList [] |}).
Proof.
  cbv zeta. unfold GET. split_world w; run_all; auto.
Qed.

Lemma GET_run (w : world) :
  fault_free w ->
  fst (GET w) = {| status := 200; body := PList (or_empty (slot w)) |}.
Proof.
  intros Hff. destruct (kv_get_ok w Hff) as (w1 & Hget & _).
  unfold GET. step_handler. rewrite Hget. reflexivity.
Qed.

(** ** Create *)

(** A POST with truthy [title] and [content], the store operations
    succeeding, appends the new record at the end of whatever
    collection is stored: the records already there keep their order
    and come first, the response is the new record with status 201, and
    the store sees one read followed by one write of the whole list. *)
Theorem POST_appends
  (b title_ content_ : jsval) (uuid : string) (now1 now2 : Z) (w : world) :
  destructure "title" b = Ok title_ ->
  destructure "content" b = Ok content_ ->
  truthy title_ = true -> truthy content_ = true ->
  fault_free w ->
  let created := {| id := uuid; title := title_; content := content_;
                    createdAt := now1; updatedAt := now2 |} in
  let stored := (or_empty (slot w) ++ [created])%list in
  let res := POST (Some b) uuid now1 now2 w in
  fst res = {| status := 201; body := POne created |} /\
  slot (snd res) = Some stored /\
  trace (snd res) = (trace w ++ [KvGet; KvSet stored])%list /\
  fst (GET (snd res)) = {| status := 200; body := PList stored |}.
Proof.
  intros Ht Hc Htt Hct Hff created stored res.
  destruct (POST_run b title_ content_ uuid now1 now2 w Ht Hc Htt Hct Hff)
    as (w' & Hrun & Hs & Htr & Hff').
  unfold res. rewrite Hrun. cbn [fst snd].
  repeat split; auto.
  rewrite (GET_run w' Hff'), Hs. reflexivity.
Qed.

Lemma POST_appends_witness :
  let old := {| id := "r1"; title := JStr "Tea"; content := JStr "Boil";
                createdAt := 5; updatedAt := 5 |} in
  let w := {| slot := Some [old]; faults := []; trace := [] |} in
  slot (snd (POST (Some (JObj [("title", JStr "Soup");
                               ("content", JStr "Simmer")]))
                  "r2" 10 10 w)) =
  Some [old; {| id := "r2"; title := JStr "Soup"; content := JStr "Simmer";
                createdAt := 10; updatedAt := 10 |}].
Proof.
  cbv zeta.
  exact (proj1 (proj2
    (POST_appends
       (JObj [("title", JStr "Soup"); ("content", JStr "Simmer")])
       (JStr "Soup") (JStr "Simmer") "r2" 10 10
       {| slot := Some [ {| id := "r1"; title := JStr "Tea";
                            content := JStr "Boil";
                            createdAt := 5; updatedAt := 5 |} ];
          faults := []; trace := [] |}
       eq_refl eq_refl eq_refl eq_refl (Forall_nil _)))).
Defined.

(** ** Update *)

(** A PUT whose id is that of a stored recipe (the first with that id),
    with truthy [title] and [content] and the store operations
    succeeding, replaces that recipe in place: [title] and [content] are
    the new ones, [updatedAt] is the current time, [id] and [createdAt]
    are kept, every other recipe and the order are unchanged; the
    response is the updated record with status 200, and a GET that
    follows lists it at the same position. *)
Theorem PUT_updates
  (b id_ title_ content_ : jsval) (now : Z) (w : world)
  (pre post : list Recipe) (old : Recipe) :
  destructure "id" b = Ok id_ ->
  destructure "title" b = Ok title_ ->
  destructure "content" b = Ok content_ ->
  truthy id_ = true -> truthy title_ = true -> truthy content_ = true ->
  or_empty (slot w) = (pre ++ old :: post)%list ->
  Forall (fun r => strict_eq (id r) id_ = false) pre ->
  strict_eq (id old) id_ = true ->
  fault_free w ->
  let updated := {| id := id old; title := title_; content := content_;
                    createdAt := createdAt old; updatedAt := now |} in
  let stored := (pre ++ updated :: post)%list in
  let res := PUT (Some b) now w in
  fst res = {| status := 200; body := POne updated |} /\
  slot (snd res) = Some stored /\
  ids (snd res) = ids w /\
  trace (snd res) = (trace w ++ [KvGet; KvSet stored])%list /\
  fst (GET (snd res)) = {| status := 200; body := PList stored |}.
Proof.
  intros Hi Ht Hc Hit Htt Hct Hl Hpre Hold Hff updated stored res.
  destruct (PUT_run b id_ title_ content_ now w pre post old
              Hi Ht Hc Hit Htt Hct Hl Hpre Hold Hff)
    as (w' & Hrun & Hs & Htr & Hff').
  unfold res. rewrite Hrun. cbn [fst snd].
  repeat split; auto.
  - unfold ids. rewrite Hs, Hl. cbn [or_empty]. unfold stored.
    rewrite !map_app. reflexivity.
  - rewrite (GET_run w' Hff'), Hs. reflexivity.
Qed.

Lemma PUT_updates_witness :
  let r1 := {| id := "r1"; title := JStr "Tea"; content := JStr "Boil";
               createdAt := 5; updatedAt := 5 |} in
  let r2 := {| id := "r2"; title := JStr "Soup"; content := JStr "Simmer";
               createdAt := 7; updatedAt := 7 |} in
  let w := {| slot := Some [r1; r2]; faults := []; trace := [] |} in
  slot (snd (PUT (Some (JObj [("id", JStr "r2"); ("title", JStr "Stew");
                              ("content", JStr "Braise")])) 20 w)) =
  Some [r1; {| id := "r2"; title := JStr "Stew"; content := JStr "Braise";
               createdAt := 7; updatedAt := 20 |}].
Proof.
  cbv zeta.
  refine (proj1 (proj2
    (PUT_updates
       (JObj [("id", JStr "r2"); ("title", JStr "Stew");
              ("content", JStr "Braise")])
       (JStr "r2") (JStr "Stew") (JStr "Braise") 20
       {| slot := Some [ {| id := "r1"; title := JStr "Tea";
                            content := JStr "Boil";
                            createdAt := 5; updatedAt := 5 |};
                         {| id := "r2"; title := JStr "Soup";
                            content := JStr "Simmer";
                            createdAt := 7; updatedAt := 7 |} ];
          faults := []; trace := [] |}
       [ {| id := "r1"; title := JStr "Tea"; content := JStr "Boil";
            createdAt := 5; updatedAt := 5 |} ]
       []
       {| id := "r2"; title := JStr "Soup"; content := JStr "Simmer";
          createdAt := 7; updatedAt := 7 |}
       eq_refl eq_refl eq_refl eq_refl eq_refl eq_refl eq_refl
       _ eq_refl (Forall_nil _)))).
  constructor; [reflexivity | constructor].
Defined.

(** A PUT whose body is JSON other than [null], so that [id], [title]
    and [content] can be read from it, and lacks a truthy [id], [title]
    or [content] is answered with status 400 before the store is
    touched: the world is returned as it was. *)
Theorem PUT_rejects_falsy
  (b id_ title_ content_ : jsval) (now : Z) (w : world) :
  destructure "id" b = Ok id_ ->
  destructure "title" b = Ok title_ ->
  destructure "content" b = Ok content_ ->
  truthy id_ = false \/ truthy title_ = false \/ truthy content_ = false ->
  PUT (Some b) now w =
  ({| status := 400; body := PError "ID, title, and content are required" |},
   w).
Proof.
  intros Hi Ht Hc Hfalsy. unfold PUT. step_handler. rewrite Hi, Ht, Hc.
  assert (E : (negb (truthy id_) || negb (truthy title_)
               || negb (truthy content_))%bool = true).
  { destruct Hfalsy as [-> | [-> | ->]]; cbn;
      rewrite ?orb_true_r; reflexivity. }
  rewrite E. reflexivity.
Qed.

Lemma PUT_rejects_falsy_witness :
  let w := {| slot := None; faults := [true]; trace := [] |} in
  PUT (Some (JObj [("title", JStr "Stew"); ("content", JStr "Braise")])) 20 w =
  ({| status := 400; body := PError "ID, title, and content are required" |},
   w).
Proof.
  cbv zeta.
  exact (PUT_rejects_falsy
           (JObj [("title", JStr "Stew"); ("content", JStr "Braise")])
           JUndefined (JStr "Stew") (JStr "Braise") 20 _
           eq_refl eq_refl eq_refl (or_introl eq_refl)).
Defined.

(** ** Delete *)

(** A DELETE without the [id] parameter, or with an empty one, is
    answered with status 400 before the store is touched. *)
Theorem DELETE_rejects_missing_id (id_ : option string) (w : world) :
  id_ = None \/ id_ = Some "" ->
  DELETE id_ w = ({| status := 400; body := PError "ID is required" |}, w).
Proof.
  intros [-> | ->]; reflexivity.
Qed.

Lemma DELETE_rejects_missing_id_witness :
  DELETE (Some "") {| slot := None; faults := [true]; trace := [] |} =
  ({| status := 400; body := PError "ID is required" |},
   {| slot := None; faults := [true]; trace := [] |}).
Proof.
  exact (DELETE_rejects_missing_id (Some "") _ (or_intror eq_refl)).
Defined.

(** A DELETE of an id some stored recipe has, the store operations
    succeeding, writes back the collection without every recipe of that
    id and answers [{success: true}] with status 200: no recipe of that
    id is left, and the recipes left are exactly those of another id,
    in their order. *)
Theorem DELETE_removes (i : string) (w : world) :
  i <> "" ->
  In i (ids w) ->
  fault_free w ->
  let res := DELETE (Some i) w in
  fst res = {| status := 200; body := PSuccess |} /\
  slot (snd res) = Some (without i (or_empty (slot w))) /\
  ~ In i (ids (snd res)) /\
  (forall r, In r (or_empty (slot (snd res))) <->
             In r (or_empty (slot w)) /\ id r <> i) /\
  trace (snd res) =
  (trace w ++ [KvGet; KvSet (without i (or_empty (slot w)))])%list.
Proof.
  intros Hne Hin Hff res.
  destruct (DELETE_run_found i w Hne Hin Hff) as (w' & Hrun & Hs & Htr & _).
  unfold res. rewrite Hrun. cbn [fst snd]. unfold ids. rewrite Hs.
  cbn [or_empty]. repeat split; auto.
  - apply without_gone.
  - unfold without in H. apply filter_In in H. tauto.
  - unfold without in H. apply filter_In in H. destruct H as [_ H].
    apply negb_true_iff, String.eqb_neq in H. exact H.
  - intros [Hr Hid]. unfold without. apply filter_In. split; [exact Hr|].
    apply negb_true_iff, String.eqb_neq. exact Hid.
Qed.

Lemma DELETE_removes_witness :
  let r1 := {| id := "r1"; title := JStr "Tea"; content := JStr "Boil";
               createdAt := 5; updatedAt := 5 |} in
  let r2 := {| id := "r2"; title := JStr "Soup"; content := JStr "Simmer";
               createdAt := 7; updatedAt := 7 |} in
  slot (snd (DELETE (Some "r1")
               {| slot := Some [r1; r2]; faults := []; trace := [] |})) =
  Some [r2].
Proof.
  cbv zeta.
  refine (proj1 (proj2
    (DELETE_removes "r1"
       {| slot := Some [ {| id := "r1"; title := JStr "Tea";
                            content := JStr "Boil";
                            createdAt := 5; updatedAt := 5 |};
                         {| id := "r2"; title := JStr "Soup";
                            content := JStr "Simmer";
                            createdAt := 7; updatedAt := 7 |} ];
          faults := []; trace := [] |}
       _ _ (Forall_nil _)))).
  - discriminate.
  - cbn. left. reflexivity.
Defined.

(** A DELETE of an id no stored recipe has, whatever the collection, is
    answered with status 404; the collection is unchanged and the only
    operation on the store is the read. *)
Theorem DELETE_unknown_id (i : string) (w : world) :
  i <> "" ->
  ~ In i (ids w) ->
  fault_free w ->
  let res := DELETE (Some i) w in
  fst res = {| status := 404; body := PError "Recipe not found" |} /\
  slot (snd res) = slot w /\
  trace (snd res) = (trace w ++ [KvGet])%list.
Proof.
  intros Hne Hin Hff res.
  destruct (DELETE_run_unknown i w Hne Hin Hff) as (w' & Hrun & Hs & Htr & _).
  unfold res. rewrite Hrun. cbn [fst snd]. auto.
Qed.

Lemma DELETE_unknown_id_witness :
  let r1 := {| id := "r1"; title := JStr "Tea"; content := JStr "Boil";
               createdAt := 5; updatedAt := 5 |} in
  fst (DELETE (Some "r9")
         {| slot := Some [r1]; faults := []; trace := [] |}) =
  {| status := 404; body := PError "Recipe not found" |}.
Proof.
  cbv zeta.
  refine (proj1
    (DELETE_unknown_id "r9"
       {| slot := Some [ {| id := "r1"; title := JStr "Tea";
                            content := JStr "Boil";
                            createdAt := 5; updatedAt := 5 |} ];
          faults := []; trace := [] |}
       _ _ (Forall_nil _))).
  - discriminate.
  - cbn. intros [H | []]. discriminate.
Defined.

(** ** Every request, every store *)

(** Whatever the request and whether or not the store fails, a handler
    attempts at most one read of the collection followed by at most one
    write, never a write without the read before it; GET reads once and
    never writes. *)
Theorem store_discipline
  (req : option jsval) (id_ : option string) (uuid : string)
  (now1 now2 : Z) (w : world) :
  let after (res : response * world) :=
    trace (snd res) = trace w \/
    trace (snd res) = (trace w ++ [KvGet])%list \/
    exists v, trace (snd res) = (trace w ++ [KvGet; KvSet v])%list in
  after (POST req uuid now1 now2 w) /\
  after (PUT req now1 w) /\
  after (DELETE id_ w) /\
  trace (snd (GET w)) = (trace w ++ [KvGet])%list.
Proof.
  cbv zeta. repeat split.
  - apply (POST_any req uuid now1 now2 w).
  - apply (PUT_any req now1 w).
  - apply (DELETE_any id_ w).
  - apply (GET_any w).
Qed.

(** A request that is not answered with its success status (201 for
    POST, 200 for PUT and DELETE) leaves the stored collection as it
    was, also when the store fails midway; GET never changes it. *)
Theorem errors_leave_store
  (req : option jsval) (id_ : option string) (uuid : string)
  (now1 now2 : Z) (w : world) :
  (status (fst (POST req uuid now1 now2 w)) <> 201 ->
   slot (snd (POST req uuid now1 now2 w)) = slot w) /\
  (status (fst (PUT req now1 w)) <> 200 ->
   slot (snd (PUT req now1 w)) = slot w) /\
  (status (fst (DELETE id_ w)) <> 200 ->
   slot (snd (DELETE id_ w)) = slot w) /\
  slot (snd (GET w)) = slot w.
Proof.
  repeat split.
  - apply (POST_any req uuid now1 now2 w).
  - apply (PUT_any req now1 w).
  - apply (DELETE_any id_ w).
  - apply (GET_any w).
Qed.

Lemma errors_leave_store_witness :
  let r1 := {| id := "r1"; title := JStr "Tea"; content := JStr "Boil";
               createdAt := 5; updatedAt := 5 |} in
  let w := {| slot := Some [r1]; faults := [false; true]; trace := [] |} in
  slot (snd (POST (Some (JObj [("title", JStr "Soup");
                               ("content", JStr "Simmer")]))
                  "r2" 10 10 w)) = Some [r1].
Proof.
  cbv zeta.
  refine (proj1
    (errors_leave_store
       (Some (JObj [("title", JStr "Soup"); ("content", JStr "Simmer")]))
       None "r2" 10 10
       {| slot := Some [ {| id := "r1"; title := JStr "Tea";
                            content := JStr "Boil";
                            createdAt := 5; updatedAt := 5 |} ];
          faults := [false; true]; trace := [] |}) _).
  cbn. discriminate.
Defined.

(** A POST or PUT whose body is not JSON, or is the JSON value [null],
    is answered with status 500 (not 400): reading the body or
    destructuring it throws before the presence check; the store is not
    touched. *)
Theorem malformed_body_is_500
  (req : option jsval) (uuid : string) (now1 now2 : Z) (w : world) :
  req = None \/ req = Some JNull ->
  POST req uuid now1 now2 w =
  ({| status := 500; body := PError "Failed to create recipe" |}, w) /\
  PUT req now1 w =
  ({| status := 500; body := PError "Failed to update recipe" |}, w).
Proof.
  intros [-> | ->]; split; reflexivity.
Qed.

Lemma malformed_body_is_500_witness :
  POST (Some JNull) "r1" 10 10 {| slot := None; faults := []; trace := [] |} =
  ({| status := 500; body := PError "Failed to create recipe" |},
   {| slot := None; faults := []; trace := [] |}).
Proof.
  exact (proj1 (malformed_body_is_500 (Some JNull) "r1" 10 10 _
                  (or_intror eq_refl))).
Defined.

(** When the read of the collection fails, every handler answers with
    status 500 (GET with an empty list as body) and the collection is
    unchanged; no write is attempted. *)
Theorem store_read_failure_is_500
  (b id_ title_ content_ : jsval) (i uuid : string) (now1 now2 : Z)
  (w : world) :
  next_fault w = true ->
  destructure "id" b = Ok id_ ->
  destructure "title" b = Ok title_ ->
  destructure "content" b = Ok content_ ->
  truthy id_ = true -> truthy title_ = true -> truthy content_ = true ->
  i <> "" ->
  let failed (message : string) (res : response * world) :=
    fst res = {| status := 500; body := PError message |} /\
    slot (snd res) = slot w /\
    trace (snd res) = (trace w ++ [KvGet])%list in
  fst (GET w) = {| status := 500; body := PList [] |} /\
  failed "Failed to create recipe" (POST (Some b) uuid now1 now2 w) /\
  failed "Failed to update recipe" (PUT (Some b) now1 w) /\
  failed "Failed to delete recipe" (DELETE (Some i) w).
Proof.
  intros Hf Hi Ht Hc Hit Htt Hct Hne. cbv zeta.
  apply String.eqb_neq in Hne.
  unfold GET, POST, PUT, DELETE. step_handler.
  rewrite Hi, Ht, Hc, Hit, Htt, Hct, Hne. cbn [negb orb].
  unfold kv_get. rewrite Hf. cbn. repeat split.
Qed.

Lemma store_read_failure_is_500_witness :
  fst (GET {| slot := Some []; faults := [true]; trace := [] |}) =
  {| status := 500; body := PList [] |}.
Proof.
  refine (proj1
    (store_read_failure_is_500
       (JObj [("id", JStr "r1"); ("title", JStr "Tea");
              ("content", JStr "Boil")])
       (JStr "r1") (JStr "Tea") (JStr "Boil") "r1" "r2" 10 10
       {| slot := Some []; faults := [true]; trace := [] |}
       eq_refl eq_refl eq_refl eq_refl eq_refl eq_refl eq_refl _)).
  discriminate.
Defined.

(** ** Unique ids *)

Lemma assign_ids (l : list Recipe) (i : nat) (old r : Recipe) :
  nth_error l i = Some old -> id r = id old ->
  map id (assign i r l) = map id l.
Proof.
  revert i. induction l as [|x l IH]; intros [|i]; cbn; intros H E;
    try discriminate.
  - injection H as ->. now rewrite E.
  - now rewrite (IH i H E).
Qed.

(** The stored recipes keep pairwise distinct ids: if they are distinct
    before a request they are distinct after it, for GET, PUT and DELETE
    always and for POST when the generated id is not yet in the
    collection; this holds whether or not the store fails. *)
Theorem recipe_ids_stay_unique
  (req : option jsval) (id_ : option string) (uuid : string)
  (now1 now2 : Z) (w : world) :
  NoDup (ids w) ->
  (~ In uuid (ids w) -> NoDup (ids (snd (POST req uuid now1 now2 w)))) /\
  NoDup (ids (snd (PUT req now1 w))) /\
  NoDup (ids (snd (DELETE id_ w))) /\
  NoDup (ids (snd (GET w))).
Proof.
  intros Hnd. unfold ids in *. repeat split.
  - intros Hfresh.
    destruct (POST_any req uuid now1 now2 w) as (_ & _ & [-> | (r & Hr & ->)]);
      [exact Hnd|].
    cbn [or_empty]. rewrite map_app. cbn. apply NoDup_app.
    + exact Hnd.
    + constructor; [intros []|constructor].
    + intros x Hx [E | []]. apply Hfresh. congruence.
  - destruct (PUT_any req now1 w)
      as (_ & _ & [-> | (i & old & r & Hnth & Hr & ->)]); [exact Hnd|].
    cbn [or_empty]. now rewrite (assign_ids _ _ _ _ Hnth Hr).
  - destruct (DELETE_any id_ w) as (_ & _ & [-> | (i & ->)]); [exact Hnd|].
    cbn [or_empty]. unfold without.
    now apply StopwatchLaws.filter_keeps_distinct.
  - destruct (GET_any w) as (_ & -> & _). exact Hnd.
Qed.

Lemma recipe_ids_stay_unique_witness :
  let r1 := {| id := "r1"; title := JStr "Tea"; content := JStr "Boil";
               createdAt := 5; updatedAt := 5 |} in
  NoDup (ids (snd (POST (Some (JObj [("title", JStr "Soup");
                                     ("content", JStr "Simmer")]))
                        "r2" 10 10
                        {| slot := Some [r1]; faults := []; trace := [] |}))).
Proof.
  cbv zeta.
  refine (proj1
    (recipe_ids_stay_unique
       (Some (JObj [("title", JStr "Soup"); ("content", JStr "Simmer")]))
       None "r2" 10 10
       {| slot := Some [ {| id := "r1"; title := JStr "Tea";
                            content := JStr "Boil";
                            createdAt := 5; updatedAt := 5 |} ];
          faults := []; trace := [] |} _) _).
  - cbn. constructor; [intros []|constructor].
  - cbn. intros [H | []]. discriminate.
Defined.

(** ** Create, then delete *)

(** Creating a recipe under a fresh id and deleting that id, the store
    operations succeeding, gives the collection back: the two requests
    are answered 201 and 200 and the stored list is the list from
    before the creation. *)
Theorem create_then_delete
  (b title_ content_ : jsval) (uuid : string) (now1 now2 : Z) (w : world) :
  destructure "title" b = Ok title_ ->
  destructure "content" b = Ok content_ ->
  truthy title_ = true -> truthy content_ = true ->
  uuid <> "" ->
  ~ In uuid (ids w) ->
  fault_free w ->
  let res1 := POST (Some b) uuid now1 now2 w in
  let res2 := DELETE (Some uuid) (snd res1) in
  status (fst res1) = 201 /\
  fst res2 = {| status := 200; body := PSuccess |} /\
  slot (snd res2) = Some (or_empty (slot w)).
Proof.
  intros Ht Hc Htt Hct Hne Hfresh Hff res1 res2.
  destruct (POST_run b title_ content_ uuid now1 now2 w Ht Hc Htt Hct Hff)
    as (w1 & Hrun1 & Hs1 & _ & Hff1).
  assert (Hin : In uuid (map id (or_empty (slot w1)))).
  { rewrite Hs1. cbn [or_empty]. rewrite map_app. apply in_or_app.
    right. left. reflexivity. }
  destruct (DELETE_run_found uuid w1 Hne Hin Hff1)
    as (w2 & Hrun2 & Hs2 & _ & _).
  unfold res2, res1. rewrite Hrun1. cbn [fst snd]. rewrite Hrun2.
  cbn [fst snd status]. repeat split.
  rewrite Hs2, Hs1. cbn [or_empty]. f_equal.
  unfold without. rewrite filter_app. cbn.
  rewrite String.eqb_refl. cbn. rewrite app_nil_r.
  apply (without_absent uuid). exact Hfresh.
Qed.

Lemma create_then_delete_witness :
  let r1 := {| id := "r1"; title := JStr "Tea"; content := JStr "Boil";
               createdAt := 5; updatedAt := 5 |} in
  let w := {| slot := Some [r1]; faults := []; trace := [] |} in
  slot (snd (DELETE (Some "r2")
               (snd (POST (Some (JObj [("title", JStr "Soup");
                                       ("content", JStr "Simmer")]))
                          "r2" 10 11 w)))) = Some [r1].
Proof.
  cbv zeta.
  refine (proj2 (proj2
    (create_then_delete
       (JObj [("title", JStr "Soup"); ("content", JStr "Simmer")])
       (JStr "Soup") (JStr "Simmer") "r2" 10 11
       {| slot := Some [ {| id := "r1"; title := JStr "Tea";
                            content := JStr "Boil";
                            createdAt := 5; updatedAt := 5 |} ];
          faults := []; trace := [] |}
       eq_refl eq_refl eq_refl eq_refl _ _ (Forall_nil _)))).
  - discriminate.
  - cbn. intros [H | []]. discriminate.
Defined.

End RecipeLaws.

(** * Properties of the recipe viewer *)

Module ViewerLaws.
Import Recipes Collection Viewer.

(** The viewer's fetch, run against the route: when the store answers,
    the viewer shows the stored collection and, if nothing was
    selected, selects its first recipe; when the read fails (the route
    answers 500 with an empty list) the viewer keeps the recipes and
    the selection it had.  Either way it stops loading. *)
Theorem fetch_from_route (w : world) (st : state) :
  let st' := fetchRecipes (Ok (fst (GET w))) st in
  loading st' = false /\
  isExpanded st' = isExpanded st /\
  (next_fault w = false ->
   recipes st' = or_empty (slot w) /\
   selectedRecipe st' =
   match selectedRecipe st with
   | Some r => Some r
   | None => hd_error (or_empty (slot w))
   end) /\
  (next_fault w = true ->
   recipes st' = recipes st /\ selectedRecipe st' = selectedRecipe st).
Proof.
  cbv zeta. unfold GET, try_catch, bind, ret, kv_get.
  destruct (next_fault w); cbn; repeat split; try discriminate.
  destruct (or_empty (slot w)), (selectedRecipe st); reflexivity.
Qed.

Lemma fetch_from_route_witness :
  let r1 := {| id := "r1"; title := JStr "Tea"; content := JStr "Boil";
               createdAt := 5; updatedAt := 5 |} in
  selectedRecipe
    (fetchRecipes
       (Ok (fst (GET {| slot := Some [r1]; faults := []; trace := [] |})))
       initial) = Some r1.
Proof.
  cbv zeta.
  exact (proj2 (proj1 (proj2 (proj2
    (fetch_from_route
       {| slot := Some [ {| id := "r1"; title := JStr "Tea";
                            content := JStr "Boil";
                            createdAt := 5; updatedAt := 5 |} ];
          faults := []; trace := [] |}
       initial))) eq_refl)).
Defined.

(** A fetch never replaces a selection: whatever the response, a recipe
    that was selected stays selected, also when the fetched list no
    longer contains it; and a rejected fetch or an error status leaves
    the list as it was. *)
Theorem fetch_keeps_selection
  (resp : outcome response) (st : state) (r : Recipe) :
  (selectedRecipe st = Some r ->
   selectedRecipe (fetchRecipes resp st) = Some r) /\
  (resp = Throw \/ (exists x, resp = Ok x /\ ok x = false) ->
   recipes (fetchRecipes resp st) = recipes st).
Proof.
  split.
  - intros Hsel. unfold fetchRecipes.
    destruct resp as [x|]; [|exact Hsel].
    destruct (negb (ok x)); [exact Hsel|].
    destruct (body x) as [data| | |]; try exact Hsel.
    cbn. rewrite Hsel. destruct data; reflexivity.
  - intros [-> | (x & -> & Hx)]; [reflexivity|].
    unfold fetchRecipes. rewrite Hx. reflexivity.
Qed.

Lemma fetch_keeps_selection_witness :
  let r1 := {| id := "r1"; title := JStr "Tea"; content := JStr "Boil";
               createdAt := 5; updatedAt := 5 |} in
  let st := {| recipes := [r1]; selectedRecipe := Some r1;
               loading := false; isExpanded := false |} in
  selectedRecipe
    (fetchRecipes (Ok {| status := 200; body := PList [] |}) st) = Some r1.
Proof.
  cbv zeta.
  exact (proj1
    (fetch_keeps_selection
       (Ok {| status := 200; body := PList [] |})
       {| recipes := [ {| id := "r1"; title := JStr "Tea";
                          content := JStr "Boil";
                          createdAt := 5; updatedAt := 5 |} ];
          selectedRecipe :=
            Some {| id := "r1"; title := JStr "Tea"; content := JStr "Boil";
                    createdAt := 5; updatedAt := 5 |};
          loading := false; isExpanded := false |}
       {| id := "r1"; title := JStr "Tea"; content := JStr "Boil";
          createdAt := 5; updatedAt := 5 |}) eq_refl).
Defined.

Lemma find_unique (l : list Recipe) (r : Recipe) :
  NoDup (map id l) -> In r l ->
  find (fun x => String.eqb (id x) (id r)) l = Some r.
Proof.
  induction l as [|x l IH]; cbn; intros Hnd Hin; [tauto|].
  inversion Hnd as [|? ? Hnotin Hnd']; subst.
  destruct Hin as [-> | Hin].
  - now rewrite String.eqb_refl.
  - destruct (String.eqb (id x) (id r)) eqn:E.
    + apply String.eqb_eq in E. exfalso. apply Hnotin. rewrite E.
      now apply in_map.
    + now apply IH.
Qed.

(** Choosing a value in the selector selects a recipe of the list with
    that id, or nothing when the list has none; the selector then shows
    the chosen value, and with pairwise distinct ids choosing the id of
    a listed recipe selects that very recipe. *)
Theorem onChange_selects (value : string) (st : state) (r : Recipe) :
  recipes (onChange value st) = recipes st /\
  match selectedRecipe (onChange value st) with
  | Some x => In x (recipes st) /\ id x = value
  | None => ~ In value (map id (recipes st))
  end /\
  (In value (map id (recipes st)) ->
   selectValue (onChange value st) = value) /\
  (NoDup (map id (recipes st)) -> In r (recipes st) ->
   selectedRecipe (onChange (id r) st) = Some r).
Proof.
  split; [reflexivity|].
  assert (Hfind :
    match selectedRecipe (onChange value st) with
    | Some x => In x (recipes st) /\ id x = value
    | None => ~ In value (map id (recipes st))
    end).
  { cbn. destruct (find _ (recipes st)) as [x|] eqn:E.
    - apply find_some in E. destruct E as [Hin Hid].
      apply String.eqb_eq in Hid. auto.
    - intros Hin. apply in_map_iff in Hin. destruct Hin as (x & Hid & Hin).
      pose proof (find_none _ _ E x Hin) as Hno. cbn in Hno.
      rewrite Hid, String.eqb_refl in Hno. discriminate. }
  split; [exact Hfind|]. split.
  - intros Hin. unfold selectValue.
    destruct (selectedRecipe (onChange value st)); tauto.
  - intros Hnd Hin. cbn. now apply find_unique.
Qed.

Lemma onChange_selects_witness :
  let r1 := {| id := "r1"; title := JStr "Tea"; content := JStr "Boil";
               createdAt := 5; updatedAt := 5 |} in
  let r2 := {| id := "r2"; title := JStr "Soup"; content := JStr "Simmer";
               createdAt := 7; updatedAt := 7 |} in
  let st := {| recipes := [r1; r2]; selectedRecipe := Some r1;
               loading := false; isExpanded := false |} in
  selectedRecipe (onChange "r2" st) = Some r2.
Proof.
  cbv zeta.
  refine (proj2 (proj2 (proj2
    (onChange_selects "r2"
       {| recipes := [ {| id := "r1"; title := JStr "Tea";
                          content := JStr "Boil";
                          createdAt := 5; updatedAt := 5 |};
                       {| id := "r2"; title := JStr "Soup";
                          content := JStr "Simmer";
                          createdAt := 7; updatedAt := 7 |} ];
          selectedRecipe :=
            Some {| id := "r1"; title := JStr "Tea"; content := JStr "Boil";
                    createdAt := 5; updatedAt := 5 |};
          loading := false; isExpanded := false |}
       {| id := "r2"; title := JStr "Soup"; content := JStr "Simmer";
          createdAt := 7; updatedAt := 7 |}))) _ _).
  - cbn. repeat constructor; cbn; intuition discriminate.
  - cbn. right. left. reflexivity.
Defined.

(** *** The rendered content *)

Lemma append_empty (a : string) : (a ++ "")%string = a.
Proof. induction a as [|c a IH]; cbn; [reflexivity | now rewrite IH]. Qed.

Lemma split_cons (sep : ascii) (text : string) :
  exists line lines, split sep text = line :: lines.
Proof.
  destruct text as [|c rest]; cbn; [eauto|].
  destruct (Ascii.eqb c sep); [eauto|].
  destruct (split sep rest); eauto.
Qed.

Lemma joinLines_split (text : string) : joinLines (split LF text) = text.
Proof.
  induction text as [|c rest IH]; [reflexivity|].
  cbn [split].
  destruct (split_cons LF rest) as (line & lines & E).
  rewrite E in *.
  destruct (Ascii.eqb c LF) eqn:Ec.
  - apply Ascii.eqb_eq in Ec. subst c.
    change (joinLines (EmptyString :: line :: lines))
      with (String LF (joinLines (line :: lines))).
    now rewrite IH.
  - rewrite <- IH. destruct lines; reflexivity.
Qed.

Lemma shown_renderLines (lines : list string) (i total : nat) :
  (i + List.length lines = total)%nat ->
  shown (renderLines lines i total) = joinLines lines /\
  List.length (filter isBr (renderLines lines i total)) =
  (List.length lines - 1)%nat.
Proof.
  revert i. induction lines as [|line rest IH]; intros i Hlen;
    [split; reflexivity|].
  cbn [List.length] in Hlen.
  destruct (IH (S i) ltac:(lia)) as [IH1 IH2].
  cbn [renderLines].
  destruct rest as [|next rest].
  - assert (E : Nat.ltb i (total - 1) = false)
      by (apply Nat.ltb_ge; cbn in Hlen; lia).
    rewrite E. cbn. split; [apply append_empty | reflexivity].
  - assert (E : Nat.ltb i (total - 1) = true)
      by (apply Nat.ltb_lt; cbn in Hlen; lia).
    rewrite E. cbn [app shown filter isBr].
    cbn [List.length] in *. rewrite IH1, IH2. split; [reflexivity | lia].
Qed.

Lemma split_length (text : string) :
  List.length (split LF text) = S (countChar LF text).
Proof.
  induction text as [|c rest IH]; [reflexivity|].
  cbn [split countChar].
  destruct (split_cons LF rest) as (line & lines & E).
  rewrite E in *.
  destruct (Ascii.eqb c LF); cbn [List.length] in *; lia.
Qed.

(** The content block shows the content unchanged: the rendered lines,
    with a line feed for each [<br />], spell the original text, there
    is one [<br />] per line feed of the content (none after the last
    line), and one line more than line feeds. *)
Theorem renderContent_faithful (text : string) :
  shown (renderContent text) = text /\
  List.length (filter isBr (renderContent text)) = countChar LF text /\
  List.length (split LF text) = S (countChar LF text) /\
  joinLines (split LF text) = text.
Proof.
  unfold renderContent.
  destruct (shown_renderLines (split LF text) 0 (List.length (split LF text))
              eq_refl) as [H1 H2].
  rewrite H1, H2, split_length, joinLines_split. cbn.
  repeat split. lia.
Qed.

End ViewerLaws.
